(** * PyNS Acoustic Survey Explorer: a shallow embedding of [PyNS_GUI_app.py]

    The script is a Streamlit page: it reads the sidebar widgets, loads the
    uploaded CSV files through the survey engine ([PyNS]), reshapes the
    spectra tables with [spectra_to_rows] and renders one tab per position.

    The development follows the script top to bottom:
    - Python values, exceptions and the [outcome] of a call;
    - the fragment of pandas the script uses ([reset_index], [rename],
      [insert], [iloc], [concat], [value_counts], ...);
    - [spectra_to_rows];
    - the L90 distribution curve;
    - the Streamlit run: session state, temporary files, rendered elements;
    - the properties of the specification, one theorem per claim. *)

From Stdlib Require Import ZArith QArith Qround Qabs Lqa Ascii String.
From stdpp Require Import gmap strings list sorting pretty.

Open Scope string_scope.
Open Scope list_scope.

(** ** Python values and exceptions *)

Module Py.

(** The exception classes the script can meet.  [StopException] is what
    [st.stop()] raises and [KeyboardInterrupt] stands for the exceptions
    that derive from [BaseException] only: neither is caught by
    [except Exception]. *)
Inductive exn_class :=
| ValueError | KeyError | IndexError | TypeError | AttributeError
| FileNotFoundError | OtherException
| StopException | KeyboardInterrupt.

Record exn := Exn { exn_cls : exn_class; exn_msg : string }.

(** [isinstance(e, Exception)]. *)
Definition is_Exception (e : exn) : bool :=
  match exn_cls e with
  | StopException | KeyboardInterrupt => false
  | _ => true
  end.

(** The result of a call: a value, or a raised exception. *)
Inductive outcome (A : Type) :=
| Ok (a : A)
| Raise (e : exn).
Arguments Ok {A} a.
Arguments Raise {A} e.

#[global] Instance outcome_ret : MRet outcome := @Ok.
#[global] Instance outcome_bind : MBind outcome :=
  fun A B f m => match m with Ok a => f a | Raise e => Raise e end.
#[global] Instance outcome_fmap : FMap outcome :=
  fun A B f m => match m with Ok a => Ok (f a) | Raise e => Raise e end.

(** A hashable scalar used as a column label or an index name: [None], a
    [str] or an [int] (labels of other types, floats in particular, are
    outside the model). *)
Inductive label := LNone | LStr (s : string) | LInt (z : Z).

#[global] Instance label_eq_dec : EqDecision label.
Proof. solve_decision. Defined.

(** [str(l)]. *)
Definition str (l : label) : string :=
  match l with
  | LNone => "None"
  | LStr s => s
  | LInt z => pretty z
  end.

(** [repr(l)], for strings without quotes or escapes. *)
Definition repr (l : label) : string :=
  match l with
  | LStr s => "'" +:+ s +:+ "'"
  | _ => str l
  end.

(** [bool(l)]. *)
Definition truthy (l : label) : bool :=
  match l with
  | LNone => false
  | LStr s => negb (bool_decide (s = ""))
  | LInt z => negb (bool_decide (z = 0%Z))
  end.

(** [a or b]. *)
Definition py_or (a b : label) : label := if truthy a then a else b.

(** [l[start:stop]] for [0 <= start] and [0 <= stop]. *)
Definition slice {A} (start stop : nat) (l : list A) : list A :=
  drop start (take stop l).

End Py.
Export Py.

(** ** The pandas fragment *)

Module pd.

(** A cell: missing ([NaN]), text, an integer or a number.  Numbers are
    exact rationals: the arithmetic of the script (one division and one
    multiplication by 100) is modelled without rounding error. *)
Inductive value := VNaN | VStr (s : string) | VInt (z : Z) | VNum (q : Q).

(** The row index: a plain [Index] with its [name], or a [MultiIndex]
    with the [names] of its levels. *)
Inductive RowIndex :=
| Index (name : label)
| RowMultiIndex (names : list label).

(** The column index: a flat header, or a two-level [MultiIndex] of
    (outer, inner) pairs, the only depth the script's
    [for lvl0, lvl1 in df.columns] can unpack. *)
Inductive Columns :=
| Flat (labels : list label)
| MultiIndex (pairs : list (label * label)).

(** A row: its index key (one value per index level) and its cells (one
    per column). *)
Record row := Row { key : list value; cells : list value }.

Record DataFrame := mkDataFrame {
  index : RowIndex;
  columns : Columns;
  rows : list row
}.

(** [len(df.columns)], which is [df.shape[1]]. *)
Definition ncols (c : Columns) : nat :=
  match c with
  | Flat ls => length ls
  | MultiIndex ps => length ps
  end.

Definition shape1 (df : DataFrame) : nat := ncols (columns df).

(** [isinstance(df.columns, pd.MultiIndex)]. *)
Definition is_MultiIndex (c : Columns) : bool :=
  match c with Flat _ => false | MultiIndex _ => true end.

(** [df.index.name]: a [MultiIndex] has none. *)
Definition index_name (i : RowIndex) : label :=
  match i with Index n => n | RowMultiIndex _ => LNone end.

(** [df.index.names]. *)
Definition index_names (i : RowIndex) : list label :=
  match i with Index n => [n] | RowMultiIndex ns => ns end.

(** [l in df.columns] for a scalar [l]: on a [MultiIndex] a scalar is
    looked up in the outer level. *)
Definition contains (l : label) (c : Columns) : bool :=
  match c with
  | Flat ls => bool_decide (l ∈ ls)
  | MultiIndex ps => bool_decide (l ∈ ps.*1)
  end.

(** The names [reset_index] gives to the columns it creates
    ([Index._get_default_index_names]). *)
Definition default_index_names (df : DataFrame) : list label :=
  match index df with
  | Index LNone =>
      [if contains (LStr "index") (columns df)
       then LStr "level_0" else LStr "index"]
  | Index n => [n]
  | RowMultiIndex ns =>
      imap (fun i n => match n with
                       | LNone => LStr ("level_" +:+ pretty i)
                       | _ => n
                       end) ns
  end.

(** [df.insert(0, column, values)] with [allow_duplicates=False]; under
    a two-level header the column is entered as [(column, '')]. *)
Definition insert0 (column : label) (val : row -> value) (df : DataFrame)
  : outcome DataFrame :=
  let put cs :=
    Ok {| index := index df; columns := cs;
          rows := (fun r => Row (key r) (val r :: cells r)) <$> rows df |} in
  match columns df with
  | Flat ls =>
      if bool_decide (column ∈ ls)
      then Raise (Exn ValueError
                    ("cannot insert " +:+ str column +:+ ", already exists"))
      else put (Flat (column :: ls))
  | MultiIndex ps =>
      if bool_decide ((column, LStr "") ∈ ps)
      then Raise (Exn ValueError
                    ("cannot insert (" +:+ repr column +:+ ", ''), already exists"))
      else put (MultiIndex ((column, LStr "") :: ps))
  end.

(** The value of index level [i] in a row. *)
Definition level_value (i : nat) (r : row) : value :=
  default VNaN (key r !! i).

(** The default [RangeIndex]: an unnamed index holding the row numbers. *)
Definition range_index (rs : list row) : list row :=
  imap (fun i r => Row [VInt (Z.of_nat i)] (cells r)) rs.

(** [df.reset_index()]: the index levels become the leading columns (the
    last level is inserted first, each at position 0) and the rows are
    numbered afresh. *)
Definition reset_index (df : DataFrame) : outcome DataFrame :=
  new_obj ← foldr (fun '(i, name) acc =>
                     obj ← acc; insert0 name (level_value i) obj)
                  (Ok df)
                  (imap (fun i n => (i, n)) (default_index_names df));
  Ok {| index := Index LNone; columns := columns new_obj;
        rows := range_index (rows new_obj) |}.

(** [df.rename(columns={old: new})]: every label equal to [old], on
    either level of a two-level header. *)
Definition rename_label (old new l : label) : label :=
  if bool_decide (l = old) then new else l.

Definition rename_columns (old new : label) (df : DataFrame) : DataFrame :=
  {| index := index df;
     columns := match columns df with
                | Flat ls => Flat (rename_label old new <$> ls)
                | MultiIndex ps =>
                    MultiIndex (prod_map (rename_label old new)
                                         (rename_label old new) <$> ps)
                end;
     rows := rows df |}.

(** [df.iloc[:, start:stop]]. *)
Definition iloc_cols (start stop : nat) (df : DataFrame) : DataFrame :=
  {| index := index df;
     columns := match columns df with
                | Flat ls => Flat (slice start stop ls)
                | MultiIndex ps => MultiIndex (slice start stop ps)
                end;
     rows := (fun r => Row (key r) (slice start stop (cells r))) <$> rows df |}.

(** [df.columns = labels]. *)
Definition set_columns (ls : list label) (df : DataFrame) : outcome DataFrame :=
  if bool_decide (length ls = shape1 df)
  then Ok {| index := index df; columns := Flat ls; rows := rows df |}
  else Raise (Exn ValueError
                ("Length mismatch: Expected axis has " +:+ pretty (shape1 df)
                 +:+ " elements, new values have " +:+ pretty (length ls)
                 +:+ " elements")).

(** The value of the (first) column labelled [l] in a row of a frame with
    header [ls], [NaN] when there is none: what reindexing a block on the
    combined columns puts in a cell. *)
Fixpoint cell_of (ls : list label) (cs : list value) (l : label) : value :=
  match ls, cs with
  | l' :: ls', c :: cs' => if bool_decide (l' = l) then c else cell_of ls' cs' l
  | _, _ => VNaN
  end.

(** The flat labels of a header; a two-level pair has no flat label in
    this model and the frames [pd.concat] meets here never have one. *)
Definition flat_labels (c : Columns) : list label :=
  match c with Flat ls => ls | MultiIndex ps => ps.*2 end.

Definition unique (ls : list label) : bool := bool_decide (NoDup ls).

(** The labels of [ls] in order of first appearance. *)
Definition first_seen (ls : list label) : list label :=
  foldl (fun acc l => if bool_decide (l ∈ acc) then acc else acc ++ [l]) [] ls.

(** [pd.concat(blocks, ignore_index=True)] on flat-headed frames: no
    block is an error; blocks with one and the same header are stacked;
    otherwise every header must be duplicate-free and the result has the
    labels in order of first appearance, with [NaN] where a block lacks a
    column. *)
Definition concat (blocks : list DataFrame) : outcome DataFrame :=
  match blocks with
  | [] => Raise (Exn ValueError "No objects to concatenate")
  | b :: bs =>
      let hdr := flat_labels (columns b) in
      if forallb (fun b' => bool_decide (flat_labels (columns b') = hdr)) bs
      then Ok {| index := Index LNone; columns := Flat hdr;
                 rows := range_index (mjoin (rows <$> blocks)) |}
      else if forallb (fun b' => unique (flat_labels (columns b'))) blocks
      then
        let all := first_seen (mjoin ((fun b' => flat_labels (columns b')) <$> blocks)) in
        Ok {| index := Index LNone; columns := Flat all;
              rows := range_index
                        (mjoin ((fun b' =>
                                   (fun r => Row (key r)
                                               (cell_of (flat_labels (columns b')) (cells r) <$> all))
                                     <$> rows b') <$> blocks)) |}
      else Raise (Exn OtherException
                    "Reindexing only valid with uniquely valued Index objects")
  end.

End pd.
Export pd.

(** ** The spectra reshaper *)

(** The body of the [for i, pos in enumerate(pos_names)] loop of
    [spectra_to_rows]: the block of position [pos], number [i]. *)
Definition spectra_block (df : DataFrame) (bands : list label)
    (i : nat) (pos : string) : outcome DataFrame :=
  let set_len := length bands in
  let start := i * set_len in
  let stop := (i + 1) * set_len in
  let sub := iloc_cols start stop df in
  sub ← set_columns (LStr ∘ str <$> bands) sub;
  sub ← reset_index sub;
  let sub := rename_columns
               (py_or (List.last (index_names (index df)) LNone) (LStr "index"))
               (LStr "Period") sub in
  if contains (LStr "Position") (columns sub) then Ok sub
  else insert0 (LStr "Position") (fun _ => VStr pos) sub.

(** The loop itself, from position number [i] on: it stops ([break]) at
    the first position whose block would end beyond the last column. *)
Fixpoint spectra_blocks (df : DataFrame) (bands : list label)
    (i : nat) (pos_names : list string) : outcome (list DataFrame) :=
  match pos_names with
  | [] => Ok []
  | pos :: rest =>
      if bool_decide (shape1 df < (i + 1) * length bands)%nat then Ok []
      else
        sub ← spectra_block df bands i pos;
        blocks ← spectra_blocks df bands (S i) rest;
        Ok (sub :: blocks)
  end.

(** [bands]: the inner labels of the first columns, as many as there are
    distinct inner labels. *)
Definition spectra_bands (ps : list (label * label)) : list label :=
  take (length (remove_dups ps.*2)) ps.*2.

Definition spectra_to_rows (df : option DataFrame) (pos_names : list string)
  : outcome (option DataFrame) :=
  match df with
  | None => Ok None
  | Some df =>
      match columns df with
      | Flat _ =>
          tidy ← reset_index df;
          let tidy := rename_columns
                        (py_or (index_name (index df)) (LStr "index"))
                        (LStr "Period") tidy in
          if contains (LStr "Position") (columns tidy) then Ok (Some tidy)
          else
            tidy ← insert0 (LStr "Position")
                     (fun _ => VStr (match pos_names with
                                     | p :: _ => p
                                     | [] => "Pos1"
                                     end)) tidy;
            Ok (Some tidy)
      | MultiIndex ps =>
          let bands := spectra_bands ps in
          blocks ← spectra_blocks df bands 0 pos_names;
          Some <$> concat blocks
      end
  end.

(** ** The L90 distribution curve *)

Module L90.

(** [numpy.round(x, 0)]: the nearest integer, a tie going to the even
    neighbour. *)
Definition round0 (q : Q) : Z :=
  let f := Qfloor q in
  match (q - inject_Z f ?= 1 # 2)%Q with
  | Lt => f
  | Gt => (f + 1)%Z
  | Eq => if Z.even f then f else (f + 1)%Z
  end.

(** A cell of a numeric column as a number, [None] for [NaN].  Text is
    no number: a column that holds text is not numeric (its dtype is
    [object]) and is charted as it is, see [object_cumsum] below. *)
Definition numeric (v : value) : option (option Q) :=
  match v with
  | VNaN => Some None
  | VInt z => Some (Some (inject_Z z))
  | VNum q => Some (Some q)
  | VStr _ => None
  end.

(** [series.round(0)]. *)
Definition round (xs : list (option Q)) : list (option Z) :=
  (fun x : option Q => round0 <$> x) <$> xs.

(** The order of [sort_values()]: ascending, [NaN] last. *)
Definition nan_last (x y : option Z) : Prop :=
  match x, y with
  | Some a, Some b => (a ≤ b)%Z
  | _, None => True
  | None, Some _ => False
  end.

#[global] Instance nan_last_dec x y : Decision (nan_last x y).
Proof. destruct x, y; simpl; apply _. Defined.

Definition sort_values (xs : list (option Z)) : list (option Z) :=
  merge_sort nan_last xs.

(** [pd.unique]: the distinct values in order of first appearance. *)
Fixpoint uniques (l : list Z) : list Z :=
  match l with
  | [] => []
  | x :: l' => x :: filter (fun y => y ≠ x) (uniques l')
  end.

(** How often [b] occurs in [l]. *)
Definition occurrences (b : Z) (l : list Z) : nat :=
  length (filter (fun y => y = b) l).

Definition by_count_desc (a b : Z * nat) : Prop := (b.2 ≤ a.2)%nat.
Definition by_index (a b : Z * nat) : Prop := (a.1 ≤ b.1)%Z.

#[global] Instance by_count_desc_dec a b : Decision (by_count_desc a b).
Proof. unfold by_count_desc; apply _. Defined.
#[global] Instance by_index_dec a b : Decision (by_index a b).
Proof. unfold by_index; apply _. Defined.

(** [series.value_counts()]: [NaN] dropped, one entry per distinct value
    with its count, the most frequent first. *)
Definition value_counts (xs : list (option Z)) : list (Z * nat) :=
  let vals := omap id xs in
  merge_sort by_count_desc ((fun b => (b, occurrences b vals)) <$> uniques vals).

(** [counts.sort_index()]. *)
Definition sort_index (c : list (Z * nat)) : list (Z * nat) :=
  merge_sort by_index c.

(** [counts.cumsum()]. *)
Fixpoint cumsum_from (acc : nat) (c : list (Z * nat)) : list (Z * nat) :=
  match c with
  | [] => []
  | (b, n) :: c' => (b, acc + n) :: cumsum_from (acc + n) c'
  end.
Definition cumsum := cumsum_from 0.

(** [series.iloc[-1]]. *)
Definition iloc_last (c : list (Z * nat)) : outcome nat :=
  match last c with
  | Some (_, n) => Ok n
  | None => Raise (Exn IndexError "single positional indexer is out-of-bounds")
  end.

Definition to_Q (n : nat) : Q := inject_Z (Z.of_nat n).

(** Lines 277 and 288-289: the cumulative-percentage curve of a numeric
    [L90 A] column, as (bin, percentage) points. *)
Definition l90_cumsum (l90 : list (option Q)) : outcome (list (Z * Q)) :=
  let l90_sorted := sort_values (round l90) in
  let c := cumsum (sort_index (value_counts l90_sorted)) in
  total ← iloc_last c;
  Ok ((fun '(b, n) => (b, (to_Q n / to_Q total * 100)%Q)) <$> c).

(** *** A column that holds text

    On a column of dtype [object], [round(0)] changes nothing; the values
    are then sorted, counted and accumulated as the strings they are, with
    [NaN] last and left out of the counts.  A number among the strings
    cannot be compared with them, and [sort_values()] raises. *)
Definition text (v : value) : outcome (option string) :=
  match v with
  | VNaN => Ok None
  | VStr s => Ok (Some s)
  | VInt _ =>
      Raise (Exn TypeError "'<' not supported between instances of 'str' and 'int'")
  | VNum _ =>
      Raise (Exn TypeError "'<' not supported between instances of 'str' and 'float'")
  end.

Definition text_nan_last (x y : option string) : Prop :=
  match x, y with
  | Some a, Some b => String.le a b
  | _, None => True
  | None, Some _ => False
  end.

#[global] Instance text_nan_last_dec x y : Decision (text_nan_last x y).
Proof. destruct x, y; simpl; apply _. Defined.

Definition text_sort_values (xs : list (option string)) : list (option string) :=
  merge_sort text_nan_last xs.

Fixpoint text_uniques (l : list string) : list string :=
  match l with
  | [] => []
  | x :: l' => x :: filter (fun y => y ≠ x) (text_uniques l')
  end.

Definition text_by_count_desc (a b : string * nat) : Prop := (b.2 ≤ a.2)%nat.
Definition text_by_index (a b : string * nat) : Prop := String.le a.1 b.1.

#[global] Instance text_by_count_desc_dec a b : Decision (text_by_count_desc a b).
Proof. unfold text_by_count_desc; apply _. Defined.
#[global] Instance text_by_index_dec a b : Decision (text_by_index a b).
Proof. unfold text_by_index; apply _. Defined.

Definition text_value_counts (xs : list (option string)) : list (string * nat) :=
  let vals := omap id xs in
  merge_sort text_by_count_desc
    ((fun b => (b, length (filter (fun y => y = b) vals))) <$> text_uniques vals).

Fixpoint text_cumsum_from (acc : nat) (c : list (string * nat))
  : list (string * nat) :=
  match c with
  | [] => []
  | (b, n) :: c' => (b, acc + n) :: text_cumsum_from (acc + n) c'
  end.

(** Lines 277 and 288-289 on a column of strings. *)
Definition object_cumsum (l90 : list (option string))
  : outcome (list (string * Q)) :=
  let l90_sorted := text_sort_values l90 in
  let c := text_cumsum_from 0
             (merge_sort text_by_index (text_value_counts l90_sorted)) in
  match last c with
  | Some (_, total) =>
      Ok ((fun '(b, n) => (b, (to_Q n / to_Q total * 100)%Q)) <$> c)
  | None => Raise (Exn IndexError "single positional indexer is out-of-bounds")
  end.

End L90.

(** ** Streamlit: the page, the session and the script run *)

Module st.

(** [st.session_state], with the two keys the script uses; [None] is a
    key that is not set yet. *)
Record SessionState := mkSession {
  apply_agg : option bool;
  period_last : option string
}.

(** Where an element is drawn: the sidebar, the main area, or the tab
    number [i] of [ui_tabs]. *)
Inductive container := Sidebar | Main | Tab (i : nat).

(** The text of a message: literal text, and the rendering of a [set] of
    strings, whose order of elements Python leaves open. *)
Inductive piece := Lit (s : string) | StrSet (xs : list string).

(** A plotly trace and the three kinds of figure the script draws. *)
Record trace := mkTrace {
  trace_name : string;
  trace_mode : string;
  trace_x : list (list value);
  trace_y : list (list value)
}.

Inductive figure (SpectraFigure : Type) :=
| Spectra (fig : SpectraFigure)
| TimeHistory (traces : list trace)
| L90Distribution (hist : list (option Z)) (cumulative : list (Z * Q))
| L90TextDistribution (hist : list (option string))
                      (cumulative : list (string * Q)).
Arguments Spectra {_} fig.
Arguments TimeHistory {_} traces.
Arguments L90Distribution {_} hist cumulative.
Arguments L90TextDistribution {_} hist cumulative.

Inductive element (SpectraFigure : Type) :=
| logo (image : string)
| widget (label : string)
| tabs (labels : list string)
| subheader (body : string)
| dataframe (data : DataFrame) (hide_index : bool)
| warning (body : list piece)
| error (body : list piece)
| plotly_chart (fig : figure SpectraFigure).
Arguments logo {_} image.
Arguments widget {_} label.
Arguments tabs {_} labels.
Arguments subheader {_} body.
Arguments dataframe {_} data hide_index.
Arguments warning {_} body.
Arguments error {_} body.
Arguments plotly_chart {_} fig.

End st.

(** The survey engine, [PyNS], as the script uses it.  A [Log] is built
    from the path and content of a CSV file; a [Survey] may or may not
    offer [add_log], a [_logs] attribute and the two spectra accessors. *)
Record Engine := mkEngine {
  Log : Type;
  Survey : Type;
  Log_init : string → string → outcome Log;
  as_interval : Log → string → outcome DataFrame;
  _master : Log → outcome DataFrame;
  Survey_init : outcome Survey;
  add_log : Survey → option (Log → string → outcome Survey);
  has_logs : Survey → bool;
  set_logs : Survey → list (string * Log) → Survey;
  resi_summary : Survey → outcome (option DataFrame);
  typical_leq_spectra : Survey → option (outcome (option DataFrame));
  lmax_spectra : Survey → option (outcome (option DataFrame))
}.

(** An uploaded file: its name and its bytes. *)
Record UploadedFile := mkUpload { name : string; getbuffer : string }.

(** What the user has entered in the sidebar when the script runs. *)
Record Widgets := mkWidgets {
  files : list UploadedFile;
  int_period : Z;
  period_select : string;
  apply_agg_btn : bool
}.

(** *** The run monad: state and exceptions *)

(** The state a run of the script acts on: the session, the files on disk
    (path to content) and the elements drawn so far. *)
Record world (F : Type) := mkWorld {
  session_state : st.SessionState;
  disk : gmap string string;
  page : list (st.container * st.element F)
}.
Arguments mkWorld {F} _ _ _.
Arguments session_state {F} _.
Arguments disk {F} _.
Arguments page {F} _.

Section Run.
Context {F : Type}.

Definition run (A : Type) : Type := world F → outcome A * world F.

#[export] Instance run_ret : MRet run := fun A a w => (Ok a, w).
#[export] Instance run_bind : MBind run := fun A B f m w =>
  match m w with
  | (Ok a, w') => f a w'
  | (Raise e, w') => (Raise e, w')
  end.

(** A pure call, which may raise. *)
Definition call {A} (o : outcome A) : run A := fun w => (o, w).

(** [try: body / except Exception as e: handler(e)]. *)
Definition try_except {A} (body : run A) (handler : exn → run A) : run A :=
  fun w =>
    match body w with
    | (Raise e, w') => if is_Exception e then handler e w' else (Raise e, w')
    | done => done
    end.

(** [try: body / finally: cleanup]. *)
Definition try_finally {A} (body : run A) (cleanup : run unit) : run A :=
  fun w =>
    let '(r, w') := body w in
    match cleanup w' with
    | (Ok _, w'') => (r, w'')
    | (Raise e, w'') => (Raise e, w'')
    end.

(** [for x in xs: body(x)]. *)
Fixpoint for_each {A} (xs : list A) (body : A → run unit) : run unit :=
  match xs with
  | [] => mret ()
  | x :: xs' => body x ;; for_each xs' body
  end.

(** Drawing an element in a container. *)
Definition draw (c : st.container) (e : st.element F) : run unit :=
  fun w => (Ok (), mkWorld (session_state w) (disk w) (page w ++ [(c, e)])).

Definition get_session : run st.SessionState :=
  fun w => (Ok (session_state w), w).
Definition set_session (s : st.SessionState) : run unit :=
  fun w => (Ok (), mkWorld s (disk w) (page w)).

(** [st.stop()]. *)
Definition stop {A} : run A :=
  call (Raise (Exn StopException "")).

End Run.

(** *** Python dictionaries and strings *)

(** A [dict] with string keys, in insertion order. *)
Definition dict (V : Type) : Type := list (string * V).

(** [d.get(k)]. *)
Fixpoint dict_get {V} (k : string) (d : dict V) : option V :=
  match d with
  | [] => None
  | (k', v) :: d' => if bool_decide (k' = k) then Some v else dict_get k d'
  end.

(** [d[k] = v]: a key that is present keeps its place. *)
Fixpoint dict_set {V} (k : string) (v : V) (d : dict V) : dict V :=
  match d with
  | [] => [(k, v)]
  | (k', v') :: d' =>
      if bool_decide (k' = k) then (k', v) :: d' else (k', v') :: dict_set k v d'
  end.

(** [list(d.keys())]. *)
Definition keys {V} (d : dict V) : list string := d.*1.

(** [c.isspace()] for an ASCII character. *)
Definition isspace (c : ascii) : bool :=
  let n := nat_of_ascii c in
  bool_decide (9 ≤ n ≤ 13 ∨ 28 ≤ n ≤ 32)%nat.

Fixpoint lstrip (s : string) : string :=
  match s with
  | String c s' => if isspace c then lstrip s' else s
  | EmptyString => EmptyString
  end.

Fixpoint rstrip (s : string) : string :=
  match s with
  | String c s' =>
      let t := rstrip s' in
      if isspace c && bool_decide (t = EmptyString) then EmptyString
      else String c t
  | EmptyString => EmptyString
  end.

(** [s.strip()] (ASCII white space). *)
Definition strip (s : string) : string := lstrip (rstrip s).

(** ** The script *)

Section Script.
Variable PyNS : Engine.

(** The figure of a tidy spectra table (lines 154-184: one trace per
    position and row, from the title, the table, the positions and the
    frequency columns).  No property below depends on its traces, so the
    figure is kept abstract. *)
Context {SpectraFigure : Type}.
Variable spectra_figure :
  string → DataFrame → list string → list label → outcome SpectraFigure.

(** [tempfile.NamedTemporaryFile(delete=False, suffix=".csv")]: the name
    given to the new file, one that no file on the disk has. *)
Variable mktemp : gmap string string → string.

Abbreviation F := SpectraFigure.
Abbreviation run := (@run F).

(** Lines 24-27: the session keys get their defaults when missing. *)
Definition init_session : run unit :=
  s ← get_session;
  let s := match st.apply_agg s with
           | None => st.mkSession (Some false) (st.period_last s)
           | Some _ => s
           end in
  let s := match st.period_last s with
           | None => st.mkSession (st.apply_agg s) (Some "")
           | Some _ => s
           end in
  set_session s.

(** [st.session_state[key]]. *)
Definition session_get {A} (field : st.SessionState → option A) (key : string)
  : run A :=
  s ← get_session;
  match field s with
  | Some v => mret v
  | None => call (Raise (Exn KeyError key))
  end.

Definition suffix_map : dict string :=
  [("second(s)", "s"); ("minute(s)", "min"); ("hour(s)", "h")].

(** Line 55: the period string. *)
Definition period_string (int_period : Z) (period_select : string) : string :=
  pretty int_period +:+ default "" (dict_get period_select suffix_map).

(** Lines 57-60: a period that differs from the last one resets the
    aggregation flag. *)
Definition period_check (period : string) : run unit :=
  last ← session_get st.period_last "period_last";
  if bool_decide (last ≠ period) then
    s ← get_session;
    set_session (st.mkSession (Some false) (st.period_last s));;
    s ← get_session;
    set_session (st.mkSession (st.apply_agg s) (Some period))
  else mret ().

(** Lines 63-65: the apply button. *)
Definition apply_action (apply_agg_btn : bool) : run unit :=
  if apply_agg_btn then
    s ← get_session;
    set_session (st.mkSession (Some true) (st.period_last s))
  else mret ().

(** Lines 29-65: the sidebar; it yields the period string. *)
Definition sidebar (w : Widgets) : run string :=
  draw st.Sidebar (st.logo "Logo.png");;
  draw st.Sidebar (st.widget "Select one or more CSV files");;
  match files w with
  | [] => stop
  | _ :: _ =>
      draw st.Sidebar
        (st.widget "Insert new integration period (must be larger than data)");;
      draw st.Sidebar (st.widget "Please select time period");;
      let period := period_string (int_period w) (period_select w) in
      period_check period;;
      draw st.Sidebar (st.widget "Apply Integration Period");;
      apply_action (apply_agg_btn w);;
      mret period
  end.

(** Lines 72-74: the upload is written to a new temporary file.  The
    write is taken to succeed: these lines come before the [try], so a
    failure of the write (a full disk) would end the run with the file
    left behind, a case the model does not cover. *)
Definition NamedTemporaryFile (content : string) : run string :=
  fun w =>
    let path := mktemp (disk w) in
    (Ok path, mkWorld (session_state w) (<[path := content]> (disk w)) (page w)).

(** [os.unlink(path)]. *)
Definition unlink (path : string) : run unit :=
  fun w =>
    match disk w !! path with
    | Some _ => (Ok (), mkWorld (session_state w) (delete path (disk w)) (page w))
    | None => (Raise (Exn FileNotFoundError path), w)
    end.

(** [PyNS.Log(path)]: the engine reads the file at [path]. *)
Definition PyNS_Log (path : string) : run (Log PyNS) :=
  fun w =>
    (match disk w !! path with
     | Some content => Log_init PyNS path content
     | None => Raise (Exn FileNotFoundError path)
     end, w).

(** Lines 71-80, one turn of the loop: the [Log] of one upload. *)
Definition load_log (upload_file : UploadedFile) (logs : dict (Log PyNS))
  : run (dict (Log PyNS)) :=
  path ← NamedTemporaryFile (getbuffer upload_file);
  try_finally
    (try_except
       (lg ← PyNS_Log path; mret (dict_set (name upload_file) lg logs))
       (fun err =>
          draw st.Main
            (st.error [st.Lit ("Failed to load `" +:+ name upload_file
                               +:+ "` into PyNS: " +:+ exn_msg err)]);;
          mret logs))
    (unlink path).

(** Lines 70-80: every upload in turn. *)
Fixpoint load_logs (files : list UploadedFile) (logs : dict (Log PyNS))
  : run (dict (Log PyNS)) :=
  match files with
  | [] => mret logs
  | upload_file :: rest =>
      logs ← load_log upload_file logs;
      load_logs rest logs
  end.

(** The tables the summary tab shows. *)
Record Summary := mkSummary {
  summary_df : option DataFrame;
  leq_spec_df : option DataFrame;
  lmax_spec_df : option DataFrame;
  summary_error : string
}.

(** A step inside the [try] of lines 86-99: an [Exception] leaves the
    tables assigned so far and records its message. *)
Definition step {A} (so_far : Summary) (o : outcome A)
    (next : A → outcome Summary) : outcome Summary :=
  match o with
  | Ok a => next a
  | Raise e =>
      if is_Exception e
      then Ok (mkSummary (summary_df so_far) (leq_spec_df so_far)
                         (lmax_spec_df so_far) (exn_msg e))
      else Raise e
  end.

(** Lines 89-93: the logs are handed to the survey. *)
Fixpoint add_logs (survey : Survey PyNS) (logs : dict (Log PyNS))
  : outcome (Survey PyNS) :=
  match logs with
  | [] => Ok survey
  | (name, lg) :: rest =>
      match add_log PyNS survey with
      | Some add => survey ← add lg name; add_logs survey rest
      | None => Raise (Exn AttributeError "add_log")
      end
  end.

Definition attach_logs (survey : Survey PyNS) (logs : dict (Log PyNS))
  : outcome (Survey PyNS) :=
  match add_log PyNS survey with
  | Some _ => add_logs survey logs
  | None => if has_logs PyNS survey then Ok (set_logs PyNS survey logs)
            else Ok survey
  end.

(** [getattr(survey, accessor, lambda: None)()]. *)
Definition optional_table (accessor : option (outcome (option DataFrame)))
  : outcome (option DataFrame) :=
  default (Ok None) accessor.

(** Lines 83-101: the survey and its three tables. *)
Definition survey_tables (logs : dict (Log PyNS)) : outcome Summary :=
  let s0 := mkSummary None None None "" in
  match logs with
  | [] => Ok (mkSummary None None None "No valid logs loaded.")
  | _ :: _ =>
      step s0 (Survey_init PyNS) (fun survey =>
      step s0 (attach_logs survey logs) (fun survey =>
      step s0 (resi_summary PyNS survey) (fun t =>
      let s1 := mkSummary t None None "" in
      step s1 (optional_table (typical_leq_spectra PyNS survey)) (fun t =>
      let s2 := mkSummary (summary_df s1) t None "" in
      step s2 (optional_table (lmax_spectra PyNS survey)) (fun t =>
      Ok (mkSummary (summary_df s2) (leq_spec_df s2) t ""))))))
  end.

(** Lines 144-187, one turn of the loop: one spectra chart. *)
Definition spectra_chart (pos_list : list string)
    (chart : string * option DataFrame) : run unit :=
  let '(title, df_data) := chart in
  tidy ← call (spectra_to_rows df_data pos_list);
  match tidy with
  | None => mret ()
  | Some tidy =>
      let freq_cols :=
        filter (fun c => c ∉ [LStr "Position"; LStr "Period"; LStr "A"])
               (flat_labels (columns tidy)) in
      match freq_cols with
      | _ :: _ =>
          fig ← call (spectra_figure title tidy pos_list freq_cols);
          draw (st.Tab 0) (st.plotly_chart (st.Spectra fig))
      | [] =>
          draw (st.Tab 0)
            (st.warning [st.Lit ("No frequency columns found for `"
                                 +:+ title +:+ "`.")])
      end
  end.

(** Lines 136-187: the summary tab. *)
Definition summary_tab (s : Summary) (pos_list : list string) : run unit :=
  draw (st.Tab 0) (st.subheader "BS8233 Residential Summary");;
  match summary_df s with
  | Some df => draw (st.Tab 0) (st.dataframe df false)
  | None =>
      draw (st.Tab 0)
        (st.warning [st.Lit ("Summary unavailable: " +:+ summary_error s)])
  end;;
  for_each [("Typical Leq Spectra", leq_spec_df s);
            ("Lmax Spectra", lmax_spec_df s)]
           (spectra_chart pos_list).

(** Lines 220-227: the copy of the table with a flat header, for the
    charts. *)
Definition flatten (c : Columns) : Columns :=
  match c with
  | Flat ls => Flat ls
  | MultiIndex ps =>
      Flat ((fun '(lvl0, lvl1) =>
               let lvl0_str := str lvl0 in
               let lvl1_str := match lvl1 with
                               | LNone => ""
                               | _ => str lvl1
                               end in
               LStr (strip (lvl0_str +:+ " " +:+ lvl1_str))) <$> ps)
  end.

Definition df_plot_of (df_used : DataFrame) : DataFrame :=
  {| index := index df_used; columns := flatten (columns df_used);
     rows := rows df_used |}.

Definition required_cols : list string := ["Leq A"; "L90 A"; "Lmax A"].

(** [required_cols.issubset(set(df_plot.columns))]. *)
Definition has_required (df_plot : DataFrame) : bool :=
  forallb (fun c => bool_decide (LStr c ∈ flat_labels (columns df_plot)))
          required_cols.

(** The columns of a row that carry the label [l]. *)
Fixpoint pick (l : label) (ls : list label) (cs : list value) : list value :=
  match ls, cs with
  | l' :: ls', c :: cs' =>
      if bool_decide (l' = l) then c :: pick l ls' cs' else pick l ls' cs'
  | _, _ => []
  end.

(** [df[l]] on a flat header: the columns labelled [l] (a [Series] when
    there is one, a frame when there are several), a [KeyError] when
    there is none. *)
Definition getitem (l : string) (df : DataFrame) : outcome (list (list value)) :=
  let ls := flat_labels (columns df) in
  let n := length (filter (fun l' => l' = LStr l) ls) in
  if bool_decide (n = 0)%nat then Raise (Exn KeyError (repr (LStr l)))
  else Ok ((fun j => (fun r => default VNaN (pick (LStr l) ls (cells r) !! j))
                       <$> rows df) <$> seq 0 n).

(** [go.Scatter(x=..., y=..., name=..., mode=...)]: each of [x] and [y]
    has to be one column; the frame that [df[l]] gives for a label that
    occurs more than once is refused. *)
Definition Scatter (name mode : string) (x y : list (list value))
  : outcome st.trace :=
  let refused property :=
    Raise (Exn ValueError
             ("Invalid value of type 'pandas.core.frame.DataFrame' received for the '"
              +:+ property +:+ "' property of scatter")) in
  match x, y with
  | [_], [_] => Ok (st.mkTrace name mode x y)
  | [_], _ => refused "y"
  | _, _ => refused "x"
  end.

(** Lines 232-273: the time-history figure. *)
Definition time_history (df_plot : DataFrame) : outcome (st.figure F) :=
  x ← getitem "Timestamp" df_plot;
  y ← getitem "Leq A" df_plot;
  leq ← Scatter "Leq A" "lines" x y;
  x ← getitem "Timestamp" df_plot;
  y ← getitem "L90 A" df_plot;
  l90 ← Scatter "L90 A" "lines" x y;
  x ← getitem "Timestamp" df_plot;
  y ← getitem "Lmax A" df_plot;
  lmax ← Scatter "Lmax A" "markers" x y;
  Ok (st.TimeHistory [leq; l90; lmax]).

(** Lines 277-322: the L90 distribution figure: the histogram of the
    rounded values and their cumulative percentages; for a column that
    holds text, the histogram and the percentages of the strings as they
    are.  Several columns labelled [L90 A] make a frame, whose
    [sort_values()] lacks its [by]. *)
Definition l90_distribution (df_plot : DataFrame) : outcome (st.figure F) :=
  l90 ← getitem "L90 A" df_plot;
  match l90 with
  | [series] =>
      match mapM L90.numeric series with
      | Some l90 =>
          let l90_sorted := L90.sort_values (L90.round l90) in
          l90_cumsum ← L90.l90_cumsum l90;
          Ok (st.L90Distribution l90_sorted l90_cumsum)
      | None =>
          l90 ← mapM L90.text series;
          let l90_sorted := L90.text_sort_values l90 in
          l90_cumsum ← L90.object_cumsum l90;
          Ok (st.L90TextDistribution l90_sorted l90_cumsum)
      end
  | _ => Raise (Exn TypeError
                  "DataFrame.sort_values() missing 1 required positional argument: 'by'")
  end.

Definition missing_warning (subheader : string) : st.element F :=
  st.warning [st.Lit "Required columns "; st.StrSet required_cols;
              st.Lit (" missing in " +:+ subheader +:+ ".")].

(** Lines 198-217: the table a position shows, with its heading;
    [None] stands for the [continue] of the two handlers. *)
Definition df_used_of (tab : st.container) (uf : UploadedFile)
    (log : Log PyNS) (period : string) : run (option (DataFrame * string)) :=
  apply_agg ← session_get st.apply_agg "apply_agg";
  if apply_agg : bool then
    try_except
      (df_used ← call (as_interval PyNS log period);
       reset ← call (reset_index df_used);
       mret (Some (rename_columns
                     (py_or (index_name (index df_used)) (LStr "index"))
                     (LStr "Timestamp") reset,
                   "Integrated Survey Data")))
      (fun e =>
         draw tab (st.error [st.Lit ("Failed to apply integration period for `"
                                     +:+ name uf +:+ "`: " +:+ exn_msg e)]);;
         mret None)
  else
    try_except
      (raw_master ← call (_master PyNS log);
       reset ← call (reset_index raw_master);
       mret (Some (rename_columns (LStr "Time") (LStr "Timestamp") reset,
                   "Raw Survey Data")))
      (fun e =>
         draw tab (st.error [st.Lit ("Failed to load raw data for `"
                                     +:+ name uf +:+ "`: " +:+ exn_msg e)]);;
         mret None).

(** Lines 219-328: the charts and the table of a position. *)
Definition position_view (tab : st.container) (df_used : DataFrame)
    (subheader : string) : run unit :=
  let df_plot := df_plot_of df_used in
  (if has_required df_plot then
     t_history ← call (time_history df_plot);
     draw tab (st.plotly_chart t_history)
   else draw tab (missing_warning subheader));;
  (if has_required df_plot then
     t_L90 ← call (l90_distribution df_plot);
     draw tab (st.plotly_chart t_L90)
   else draw tab (missing_warning subheader));;
  draw tab (st.subheader subheader);;
  draw tab (st.dataframe df_used true).

(** Lines 190-328, one turn of the loop: the tab [tab] paired with the
    upload [uf]. *)
Definition position_tab (logs : dict (Log PyNS)) (period : string)
    (pair : st.container * UploadedFile) : run unit :=
  let '(tab, uf) := pair in
  match dict_get (name uf) logs with
  | None =>
      draw tab (st.error [st.Lit ("Log for `" +:+ name uf +:+ "` not found.")])
  | Some log =>
      used ← df_used_of tab uf log period;
      match used with
      | None => mret ()
      | Some (df_used, subheader) => position_view tab df_used subheader
      end
  end.

(** [ui_tabs[1:]] for the tabs of [st.tabs(["Summary"] + pos_list)]. *)
Definition position_containers (pos_list : list string) : list st.container :=
  st.Tab <$> seq 1 (length pos_list).

(** Lines 190-328: [for tab, uf in zip(ui_tabs[1:], files)]. *)
Definition position_tabs (logs : dict (Log PyNS)) (period : string)
    (files : list UploadedFile) : run unit :=
  for_each (zip (position_containers (keys logs)) files)
           (position_tab logs period).

(** Lines 68-328: the main window. *)
Definition main_window (w : Widgets) (period : string) : run unit :=
  logs ← load_logs (files w) [];
  s ← call (survey_tables logs);
  let pos_list := keys logs in
  draw st.Main (st.tabs ("Summary" :: pos_list));;
  summary_tab s pos_list;;
  position_tabs logs period (files w).

(** The whole script, run once per interaction. *)
Definition script (w : Widgets) : run unit :=
  init_session;;
  period ← sidebar w;
  main_window w period.

End Script.

(** ** A small engine and a few tables, to run the script on *)

Module Toy.

(** A raw log table: time index, two-level header. *)
Definition master : DataFrame :=
  {| index := Index (LStr "Time");
     columns := MultiIndex [(LStr "Leq", LStr "A"); (LStr "L90", LStr "A");
                            (LStr "Lmax", LStr "A")];
     rows := [Row [VStr "10:00"] [VNum (512 # 10); VNum (425 # 10); VNum (70 # 1)];
              Row [VStr "10:01"] [VNum (498 # 10); VNum (415 # 10); VNum (66 # 1)]] |}.

(** A table without the [Lmax A] column. *)
Definition no_lmax : DataFrame :=
  {| index := Index LNone;
     columns := Flat [LStr "Timestamp"; LStr "Leq A"; LStr "L90 A"];
     rows := [Row [VInt 0] [VStr "10:00"; VNum (512 # 10); VNum (425 # 10)]] |}.

(** A two-level spectra table: two positions, two bands. *)
Definition spectra : DataFrame :=
  {| index := Index (LStr "Period");
     columns := MultiIndex [(LStr "P1", LInt 63); (LStr "P1", LInt 125);
                            (LStr "P2", LInt 63); (LStr "P2", LInt 125)];
     rows := [Row [VStr "Daytime"] [VInt 1; VInt 2; VInt 3; VInt 4];
              Row [VStr "Night"] [VInt 5; VInt 6; VInt 7; VInt 8]] |}.

(** The same bands with the positions in the row index. *)
Definition spectra_by_position : DataFrame :=
  {| index := RowMultiIndex [LStr "Position"; LStr "Period"];
     columns := MultiIndex [(LStr "Leq", LInt 63); (LStr "Leq", LInt 125)];
     rows := [Row [VStr "P1"; VStr "Daytime"] [VInt 1; VInt 2];
              Row [VStr "P1"; VStr "Night"] [VInt 5; VInt 6]] |}.

(** The two-level table again, its index named like a band. *)
Definition spectra_index_63 : DataFrame :=
  {| index := Index (LStr "63");
     columns := columns spectra;
     rows := rows spectra |}.

(** A two-level table without columns. *)
Definition no_columns : DataFrame :=
  {| index := Index (LStr "Period");
     columns := MultiIndex [];
     rows := [Row [VStr "Daytime"] []] |}.

(** A flat spectra table. *)
Definition flat_spectra : DataFrame :=
  {| index := Index (LStr "Period");
     columns := Flat [LInt 63; LInt 125];
     rows := [Row [VStr "Daytime"] [VInt 1; VInt 2];
              Row [VStr "Night"] [VInt 5; VInt 6]] |}.

(** An engine whose logs are their master table: a file parses unless it
    is empty, and only the period [15min] can be applied. *)
Definition engine : Engine :=
  {| Log := DataFrame;
     Survey := dict DataFrame;
     Log_init := fun path content =>
       if bool_decide (content = "") then Raise (Exn ValueError "empty file")
       else Ok master;
     as_interval := fun log t =>
       if bool_decide (t = "15min") then Ok log
       else Raise (Exn ValueError "period finer than the data");
     _master := fun log => Ok log;
     Survey_init := Ok [];
     add_log := fun survey => Some (fun lg name => Ok (survey ++ [(name, lg)]));
     has_logs := fun _ => true;
     set_logs := fun _ logs => logs;
     resi_summary := fun _ => Ok None;
     typical_leq_spectra := fun _ => None;
     lmax_spectra := fun _ => None |}.

(** The spectra figure, reduced to its title. *)
Definition spectra_figure (title : string) (tidy : DataFrame)
    (pos_list : list string) (freq_cols : list label) : outcome string :=
  Ok title.

(** A name no file on the disk has. *)
Definition mktemp (d : gmap string string) : string := fresh (dom d).

Definition world0 : world string :=
  mkWorld (st.mkSession None None) ∅ [].

Definition bad : UploadedFile := mkUpload "bad.csv" "".
Definition good : UploadedFile := mkUpload "good.csv" "Time,Leq A,L90 A,Lmax A".
Definition again : UploadedFile := mkUpload "good.csv" "Time,Leq A,L90 A".

(** The engine again, with a summary table and a Leq spectra accessor
    that fails. *)
Definition engine_failing_spectra : Engine :=
  {| Log := DataFrame;
     Survey := dict DataFrame;
     Log_init := Log_init engine;
     as_interval := as_interval engine;
     _master := _master engine;
     Survey_init := Ok [];
     add_log := fun survey => Some (fun lg name => Ok (survey ++ [(name, lg)]));
     has_logs := fun _ => true;
     set_logs := fun _ logs => logs;
     resi_summary := fun _ => Ok (Some no_lmax);
     typical_leq_spectra := fun _ =>
       Some (Raise (Exn ValueError "no spectra in the logs"));
     lmax_spectra := fun _ => Some (Ok (Some spectra)) |}.

(** A log table whose index is named like one of its columns. *)
Definition time_twice : DataFrame :=
  {| index := Index (LStr "Time");
     columns := Flat [LStr "Time"; LStr "Leq A"];
     rows := [Row [VStr "10:00"] [VStr "10:00"; VNum (512 # 10)]] |}.

(** A prepared table with the three required columns and no time column. *)
Definition no_time : DataFrame :=
  {| index := Index LNone;
     columns := Flat [LStr "Date"; LStr "Leq A"; LStr "L90 A"; LStr "Lmax A"];
     rows := [Row [VInt 0] [VStr "10:00"; VNum (512 # 10); VNum (425 # 10);
                            VNum (70 # 1)]] |}.

End Toy.

(** * The specification's notions *)

(** ** What a part of the run leaves alone, and what it draws *)

(** A computation that never writes to the session. *)
Definition keeps_session {F A} (m : @run F A) : Prop :=
  ∀ w, session_state (m w).2 = session_state w.

(** A computation that never touches the disk. *)
Definition keeps_disk {F A} (m : @run F A) : Prop :=
  ∀ w, disk (m w).2 = disk w.

(** A computation that only adds to the page, and only elements with the
    property [P]. *)
Definition draws_only {F} (P : st.element F → Prop) {A} (m : @run F A) : Prop :=
  ∀ w, ∃ more, page (m w).2 = page w ++ more ∧ Forall (fun ce => P ce.2) more.

(** The tab sets drawn on a page, in order. *)
Definition drawn_tabs {F} (p : list (st.container * st.element F))
  : list (list string) :=
  omap (fun ce => match ce.2 with st.tabs labels => Some labels | _ => None end) p.

(** An element other than a tab set. *)
Definition not_tabs {F} (e : st.element F) : Prop :=
  match e with st.tabs _ => False | _ => True end.

(** ** The session state as the specification's ViewState *)

(** The ViewState a session stands for: a key that is not set yet reads as
    its default. *)
Definition view (s : st.SessionState) : bool * string :=
  (default false (st.apply_agg s), default "" (st.period_last s)).

(** ** The columns a warning names *)

(** The required columns a chart table lacks. *)
Definition missing_cols (df_plot : DataFrame) : list string :=
  filter (fun c => LStr c ∉ flat_labels (columns df_plot)) required_cols.

(** The column names a rendered element spells out as a set. *)
Definition named_columns {F} (e : st.element F) : list string :=
  match e with
  | st.warning body | st.error body =>
      mjoin ((fun p => match p with st.StrSet xs => xs | st.Lit _ => [] end) <$> body)
  | _ => []
  end.

(** ** The reshaped table, written out *)

(** Rows numbered afresh, given their cells. *)
Definition numbered (cs : list (list value)) : list row :=
  imap (fun i c => Row [VInt (Z.of_nat i)] c) cs.

(** The band labels as the blocks carry them. *)
Definition band_labels (bands : list label) : list label := LStr ∘ str <$> bands.

(** The label that [rename] turns into [Period] in a block. *)
Definition period_key (idx : RowIndex) : label :=
  py_or (List.last (index_names idx) LNone) (LStr "index").

(** The columns the index levels become in a block. *)
Definition level_labels (idx : RowIndex) (bands : list label) : list label :=
  default_index_names (mkDataFrame idx (Flat (band_labels bands)) []).

(** The header of a block before the tag: the index levels, then the
    bands, with the period key renamed. *)
Definition tidy_header (idx : RowIndex) (bands : list label) : list label :=
  rename_label (period_key idx) (LStr "Period")
    <$> (level_labels idx bands ++ band_labels bands).

(** A block is tagged with its position when it has no [Position] column
    of its own. *)
Definition tagged (idx : RowIndex) (bands : list label) : bool :=
  negb (bool_decide (LStr "Position" ∈ tidy_header idx bands)).

(** A row of block [i]: the tag, the values of the index levels, and the
    cells of columns [i*B .. (i+1)*B - 1]. *)
Definition tidy_cells (tag : bool) (nlevels B i : nat) (pos : string) (r : row)
  : list value :=
  (if tag then [VStr pos] else [])
  ++ ((fun j => level_value j r) <$> seq 0 nlevels)
  ++ slice (i * B) ((i + 1) * B) (cells r).

(** The blocks of the positions [pos_names], one after the other, numbered
    from block [first]. *)
Definition block_rows (df : DataFrame) (bands : list label) (first : nat)
    (pos_names : list string) : list (list value) :=
  let idx := index df in
  mjoin (imap (fun i pos =>
                 tidy_cells (tagged idx bands) (length (index_names idx))
                            (length bands) (first + i) pos <$> rows df)
              pos_names).

(** The header all blocks share: the tag column, when there is one, then
    the block header. *)
Definition blocks_header (df : DataFrame) (bands : list label) : list label :=
  (if tagged (index df) bands then [LStr "Position"] else [])
  ++ tidy_header (index df) bands.

(** The table of the blocks of [pos_names]: what the specification calls
    the concatenation of the per-position blocks. *)
Definition blocks_table (df : DataFrame) (bands : list label)
    (pos_names : list string) : DataFrame :=
  {| index := Index LNone;
     columns := Flat (blocks_header df bands);
     rows := numbered (block_rows df bands 0 pos_names) |}.

(** ** The cumulative curve, written out *)

(** The rounded values of a column, [NaN] left out. *)
Definition rounded (l90 : list (option Q)) : list Z := omap id (L90.round l90).

(** The share, in percent, of the values that are at most [b]. *)
Definition cumulative_percent (V : list Z) (b : Z) : Q :=
  (L90.to_Q (length (filter (fun v => (v ≤ b)%Z) V)) / L90.to_Q (length V) * 100)%Q.

(** ** The ingestion loop, written out *)

(** What the engine makes of an upload, written to the temporary file that
    the disk [d] leads to. *)
Definition parse_upload (PyNS : Engine) (mktemp : gmap string string → string)
    (d : gmap string string) (uf : UploadedFile) : outcome (Log PyNS) :=
  Log_init PyNS (mktemp d) (getbuffer uf).

(** The dictionary of logs after one more upload: a log that parses is
    entered under the name of its upload. *)
Definition enter_log (PyNS : Engine) (mktemp : gmap string string → string)
    (d : gmap string string) (logs : dict (Log PyNS)) (uf : UploadedFile)
  : dict (Log PyNS) :=
  match parse_upload PyNS mktemp d uf with
  | Ok lg => dict_set (name uf) lg logs
  | Raise _ => logs
  end.

(** The error an upload puts on the page when it does not parse. *)
Definition load_error {F} (PyNS : Engine) (mktemp : gmap string string → string)
    (d : gmap string string) (uf : UploadedFile)
  : option (st.container * st.element F) :=
  match parse_upload PyNS mktemp d uf with
  | Ok _ => None
  | Raise e =>
      Some (st.Main,
            st.error [st.Lit ("Failed to load `" +:+ name uf
                              +:+ "` into PyNS: " +:+ exn_msg e)])
  end.

(** The log of the last upload named [k] that parses. *)
Definition last_parsed (PyNS : Engine) (mktemp : gmap string string → string)
    (d : gmap string string) (k : string) (files : list UploadedFile)
  : option (Log PyNS) :=
  last (omap (fun uf => if bool_decide (name uf = k)
                        then match parse_upload PyNS mktemp d uf with
                             | Ok lg => Some lg
                             | Raise _ => None
                             end
                        else None) files).

(** The widgets of the sidebar, once files are there. *)
Definition sidebar_widgets {F} : list (st.container * st.element F) :=
  [(st.Sidebar, st.logo "Logo.png");
   (st.Sidebar, st.widget "Select one or more CSV files");
   (st.Sidebar,
    st.widget "Insert new integration period (must be larger than data)");
   (st.Sidebar, st.widget "Please select time period");
   (st.Sidebar, st.widget "Apply Integration Period")].

(** The session a run leaves behind when it has files: the period string
    of the run, and the aggregation flag. *)
Definition session_after (w : Widgets) (s : st.SessionState) : st.SessionState :=
  let period := period_string (int_period w) (period_select w) in
  st.mkSession
    (Some (apply_agg_btn w || (view s).1 && bool_decide ((view s).2 = period)))
    (Some period).

(** ** Strings *)

(** The last character of a string. *)
Fixpoint last_char (s : string) : option ascii :=
  match s with
  | EmptyString => None
  | String c EmptyString => Some c
  | String _ s' => last_char s'
  end.

(** * Properties *)

(** The toy name generator gives a name that no file has. *)
Lemma toy_mktemp_fresh (d : gmap string string) : d !! Toy.mktemp d = None.
Proof.
  unfold Toy.mktemp. apply (not_elem_of_dom (D:=gset string)). apply is_fresh.
Qed.

(** ** What a part of the run leaves alone *)

Section RunFacts.
Context {F : Type}.

Lemma keeps_session_ret {A} (a : A) : keeps_session (F:=F) (mret a).
Proof. by intros w. Qed.

Lemma keeps_session_call {A} (o : outcome A) : keeps_session (F:=F) (call o).
Proof. by intros w. Qed.

Lemma keeps_session_draw c e : keeps_session (F:=F) (draw c e).
Proof. by intros w. Qed.

Lemma keeps_session_get : keeps_session (F:=F) get_session.
Proof. by intros w. Qed.

Lemma keeps_session_bind {A B} (m : @run F A) (f : A → @run F B) :
  keeps_session (F:=F) m → (∀ a, keeps_session (F:=F) (f a)) → keeps_session (F:=F) (m ≫= f).
Proof.
  intros Hm Hf w. unfold mbind, run_bind.
  specialize (Hm w). destruct (m w) as [[a|e] w1]; simpl in *.
  - by rewrite Hf.
  - done.
Qed.

Lemma keeps_session_try_except {A} (body : @run F A) handler :
  keeps_session (F:=F) body → (∀ e, keeps_session (F:=F) (handler e)) →
  keeps_session (F:=F) (try_except body handler).
Proof.
  intros Hb Hh w. unfold try_except.
  specialize (Hb w). destruct (body w) as [[a|e] w1]; simpl in *; [done|].
  destruct (is_Exception e); [|done]. by rewrite Hh.
Qed.

Lemma keeps_session_try_finally {A} (body : @run F A) cleanup :
  keeps_session (F:=F) body → keeps_session (F:=F) cleanup →
  keeps_session (F:=F) (try_finally body cleanup).
Proof.
  intros Hb Hc w. unfold try_finally.
  specialize (Hb w). destruct (body w) as [r w1]; simpl in *.
  specialize (Hc w1). by destruct (cleanup w1) as [[[]|e] w2]; simpl in *; congruence.
Qed.

Lemma keeps_session_for_each {A} (xs : list A) body :
  (∀ x, keeps_session (F:=F) (body x)) → keeps_session (F:=F) (for_each xs body).
Proof.
  intros Hb. induction xs as [|x xs IH]; simpl.
  - apply keeps_session_ret.
  - apply keeps_session_bind; auto.
Qed.

Lemma keeps_disk_ret {A} (a : A) : keeps_disk (F:=F) (mret a).
Proof. by intros w. Qed.

Lemma keeps_disk_call {A} (o : outcome A) : keeps_disk (F:=F) (call o).
Proof. by intros w. Qed.

Lemma keeps_disk_draw c e : keeps_disk (F:=F) (draw c e).
Proof. by intros w. Qed.

Lemma keeps_disk_bind {A B} (m : @run F A) (f : A → @run F B) :
  keeps_disk (F:=F) m → (∀ a, keeps_disk (F:=F) (f a)) → keeps_disk (F:=F) (m ≫= f).
Proof.
  intros Hm Hf w. unfold mbind, run_bind.
  specialize (Hm w). destruct (m w) as [[a|e] w1]; simpl in *.
  - by rewrite Hf.
  - done.
Qed.

End RunFacts.

Create HintDb keeps discriminated.
#[export] Hint Resolve keeps_session_ret keeps_session_call keeps_session_draw
  keeps_session_get keeps_session_bind keeps_session_try_except
  keeps_session_try_finally keeps_session_for_each : keeps.

(** ** The session state (the specification's ViewState) *)

Section SessionFacts.
Variable PyNS : Engine.
Context {F : Type}.
Variable spectra_figure :
  string → DataFrame → list string → list label → outcome F.
Variable mktemp : gmap string string → string.

Lemma keeps_session_session_get {A} (field : st.SessionState → option A) key :
  keeps_session (session_get (SpectraFigure:=F) field key).
Proof.
  intros w. unfold session_get, mbind, run_bind; simpl.
  by destruct (field (session_state w)).
Qed.

Lemma keeps_session_load_log uf logs :
  keeps_session (load_log (SpectraFigure:=F) PyNS mktemp uf logs).
Proof.
  unfold load_log. apply keeps_session_bind; [by intros w|].
  intros path. apply keeps_session_try_finally.
  - apply keeps_session_try_except.
    + apply keeps_session_bind; [by intros w|]. auto with keeps.
    + auto with keeps.
  - intros w. unfold unlink. by destruct (disk w !! path).
Qed.

Lemma keeps_session_load_logs files logs :
  keeps_session (load_logs (SpectraFigure:=F) PyNS mktemp files logs).
Proof.
  revert logs. induction files as [|uf files IH]; intros logs; simpl.
  - auto with keeps.
  - apply keeps_session_bind; auto using keeps_session_load_log.
Qed.

Lemma keeps_session_summary_tab s pos_list :
  keeps_session (summary_tab spectra_figure s pos_list).
Proof.
  unfold summary_tab. apply keeps_session_bind; [auto with keeps|]. intros _.
  apply keeps_session_bind; [destruct (summary_df s); auto with keeps|].
  intros _. apply keeps_session_for_each. intros [title df_data].
  unfold spectra_chart. apply keeps_session_bind; [auto with keeps|].
  intros [tidy|]; [|auto with keeps].
  destruct (filter _ _); auto with keeps.
Qed.

Lemma keeps_session_position_view tab df_used subheader :
  keeps_session (position_view (SpectraFigure:=F) tab df_used subheader).
Proof.
  unfold position_view.
  repeat (apply keeps_session_bind; [|intros ?]);
    try destruct (has_required _); auto with keeps.
Qed.

Lemma keeps_session_df_used_of tab uf log period :
  keeps_session (df_used_of (SpectraFigure:=F) PyNS tab uf log period).
Proof.
  unfold df_used_of.
  apply keeps_session_bind; [apply keeps_session_session_get|].
  intros [|]; apply keeps_session_try_except; auto 10 with keeps.
Qed.

Lemma keeps_session_position_tabs logs period files :
  keeps_session (position_tabs (SpectraFigure:=F) PyNS logs period files).
Proof.
  apply keeps_session_for_each. intros [tab uf]. unfold position_tab.
  destruct (dict_get _ _); [|auto with keeps].
  apply keeps_session_bind; [apply keeps_session_df_used_of|].
  intros [[df_used subheader]|]; auto using keeps_session_position_view with keeps.
Qed.

(** Nothing in the main window writes to the session. *)
Lemma keeps_session_main_window w period :
  keeps_session (main_window PyNS spectra_figure mktemp w period).
Proof.
  unfold main_window.
  apply keeps_session_bind; [apply keeps_session_load_logs|]. intros logs.
  apply keeps_session_bind; [auto with keeps|]. intros s.
  apply keeps_session_bind; [auto with keeps|]. intros _.
  apply keeps_session_bind; [apply keeps_session_summary_tab|]. intros _.
  apply keeps_session_position_tabs.
Qed.

(** The period check on its own (lines 57-60). *)
Lemma period_check_spec (period : string) (w : world F) agg last :
  session_state w = st.mkSession agg (Some last) →
  period_check period w =
    (Ok (), if bool_decide (last ≠ period)
            then mkWorld (st.mkSession (Some false) (Some period)) (disk w) (page w)
            else w).
Proof.
  intros Hs. unfold period_check, session_get, mbind, run_bind; simpl.
  rewrite Hs; simpl. by case_bool_decide.
Qed.

(** The apply button on its own (lines 63-65). *)
Lemma apply_action_spec (btn : bool) (w : world F) :
  apply_action btn w =
    (Ok (), if btn
            then mkWorld (st.mkSession (Some true) (st.period_last (session_state w)))
                         (disk w) (page w)
            else w).
Proof. by destruct btn. Qed.

(** The session after the sidebar, for a session whose keys are set. *)
Lemma sidebar_session (w : Widgets) (w0 : world F) agg last :
  session_state w0 = st.mkSession (Some agg) (Some last) →
  let period := period_string (int_period w) (period_select w) in
  match files w with
  | [] => sidebar w w0 = (Raise (Exn StopException ""),
                          mkWorld (session_state w0) (disk w0)
                            (page w0 ++ [(st.Sidebar, st.logo "Logo.png")]
                             ++ [(st.Sidebar, st.widget "Select one or more CSV files")]))
  | _ :: _ =>
      ∃ w1, sidebar w w0 = (Ok period, w1) ∧
            session_state w1 =
              st.mkSession
                (Some (apply_agg_btn w || agg && bool_decide (last = period)))
                (Some period)
  end.
Proof.
  intros Hs period. unfold sidebar.
  destruct (files w) as [|uf ufs].
  - unfold mbind, run_bind, draw, stop, call; simpl. by rewrite <-app_assoc.
  - unfold mbind at 1 2 3 4, run_bind; simpl.
    set (w2 := mkWorld _ _ _).
    fold period.
    unfold mbind at 1, run_bind.
    rewrite (period_check_spec period w2 (Some agg) last) by done.
    unfold mbind, run_bind; simpl.
    rewrite apply_action_spec. simpl.
    eexists; split; [done|].
    destruct (apply_agg_btn w); simpl; repeat case_bool_decide;
      simplify_eq/=; rewrite ?Hs, ?andb_true_r, ?andb_false_r; done.
Qed.

End SessionFacts.

Section ViewState.
Variable PyNS : Engine.
Context {F : Type}.
Variable spectra_figure :
  string → DataFrame → list string → list label → outcome F.
Variable mktemp : gmap string string → string.

(** Lines 24-27 give each missing key its default and change nothing
    else. *)
Lemma init_session_spec (w0 : world F) :
  init_session w0 =
    (Ok (), mkWorld (st.mkSession (Some (view (session_state w0)).1)
                                  (Some (view (session_state w0)).2))
                    (disk w0) (page w0)).
Proof.
  unfold init_session, mbind, run_bind, get_session, set_session, view; simpl.
  by destruct (session_state w0) as [[a|] [l|]].
Qed.

(** C3.  The session state changes in two places only.  The period check
    (lines 57-60), on any prior state whose last period differs from the
    new period string, sets [apply_agg] to false and [period_last] to the
    new string at once; the apply action (lines 63-65) sets [apply_agg]
    to true and nothing else.  A whole run of the script is these two
    steps in this order and no other change: without files the state is
    as it was; with files, [period_last] is the new period string and
    [apply_agg] is true exactly when the button was pressed, or when it
    was true before and the period has not changed. *)
Theorem viewstate_transitions (w : Widgets) (w0 : world F) :
  let s := session_state w0 in
  let s' := session_state (script PyNS spectra_figure mktemp w w0).2 in
  let period := period_string (int_period w) (period_select w) in
  (∀ (w1 : world F) agg last,
      session_state w1 = st.mkSession agg (Some last) → last ≠ period →
      session_state (period_check period w1).2
      = st.mkSession (Some false) (Some period)) ∧
  (∀ (w1 : world F) agg,
      session_state w1 = st.mkSession agg (Some period) →
      session_state (period_check period w1).2 = session_state w1) ∧
  (∀ w1 : world F,
      session_state (apply_action true w1).2
      = st.mkSession (Some true) (st.period_last (session_state w1)) ∧
      session_state (apply_action false w1).2 = session_state w1) ∧
  match files w with
  | [] => view s' = view s
  | _ :: _ =>
      s' = st.mkSession
             (Some (apply_agg_btn w
                    || (view s).1 && bool_decide ((view s).2 = period)))
             (Some period) ∧
      ((view s).2 ≠ period → apply_agg_btn w = false →
       st.apply_agg s' = Some false) ∧
      (st.apply_agg s' = Some true →
       apply_agg_btn w = true ∨ (view s).1 = true ∧ (view s).2 = period)
  end.
Proof.
  intros s s' period. split; [|split; [|split]].
  - intros w1 agg last Hs Hne.
    rewrite (period_check_spec period w1 agg last Hs).
    by rewrite bool_decide_true.
  - intros w1 agg Hs.
    rewrite (period_check_spec period w1 agg period Hs).
    rewrite bool_decide_false; [done|]. by intros [].
  - intros w1. by rewrite !apply_action_spec.
  - assert (Hrun : script PyNS spectra_figure mktemp w w0 =
                   let w1 := (init_session w0).2 in
                   match sidebar w w1 with
                   | (Ok p, w2) => main_window PyNS spectra_figure mktemp w p w2
                   | (Raise e, w2) => (Raise e, w2)
                   end).
    { unfold script, mbind, run_bind. by rewrite init_session_spec. }
    subst s'. rewrite Hrun. clear Hrun. rewrite init_session_spec. simpl.
    set (w1 := mkWorld _ _ _).
    pose proof (sidebar_session w w1 (view s).1 (view s).2 eq_refl) as Hside.
    simpl in Hside. fold period in Hside.
    destruct (files w) as [|uf ufs].
    + rewrite Hside. done.
    + destruct Hside as (w2 & -> & Hs2).
      rewrite keeps_session_main_window, Hs2. split; [done|]. simpl. split.
      * intros Hne ->. simpl. by rewrite bool_decide_false, andb_false_r.
      * intros [= Hb]. apply orb_prop in Hb as [Hb|Hb]; [by left|right].
        apply andb_prop in Hb as [? ?%bool_decide_eq_true]. done.
Qed.

End ViewState.

(** The theorem at work: the period goes from 15min to 30min while
    aggregation is applied. *)
Lemma viewstate_transitions_witness :
  session_state
    (period_check (SpectraFigure:=string) "30min"
       (mkWorld (st.mkSession (Some true) (Some "15min")) ∅ [])).2
  = st.mkSession (Some false) (Some "30min").
Proof.
  apply (proj1 (viewstate_transitions Toy.engine Toy.spectra_figure Toy.mktemp
                  (mkWidgets [Toy.good] 30 "minute(s)" false) Toy.world0)
               (mkWorld (st.mkSession (Some true) (Some "15min")) ∅ [])
               (Some true) "15min").
  - reflexivity.
  - discriminate.
Defined.

(** ** The temporary files of the ingestion loop *)

Section TempFiles.
Variable PyNS : Engine.
Context {F : Type}.
Variable mktemp : gmap string string → string.
Hypothesis mktemp_fresh : ∀ d, d !! mktemp d = None.

(** One turn of the loop, path by path. *)
Lemma load_log_spec uf logs (w : world F) :
  let path := mktemp (disk w) in
  load_log PyNS mktemp uf logs w =
    match Log_init PyNS path (getbuffer uf) with
    | Ok lg => (Ok (dict_set (name uf) lg logs), w)
    | Raise e =>
        if is_Exception e
        then (Ok logs,
              mkWorld (session_state w) (disk w)
                (page w ++ [(st.Main,
                             st.error [st.Lit ("Failed to load `" +:+ name uf
                                               +:+ "` into PyNS: " +:+ exn_msg e)])]))
        else (Raise e, w)
    end.
Proof.
  intros path. destruct w as [s d p]. subst path; simpl.
  unfold load_log, mbind, run_bind, NamedTemporaryFile, try_finally,
    try_except, PyNS_Log, unlink, draw, mret, run_ret; simpl.
  rewrite lookup_insert_eq.
  destruct (Log_init PyNS (mktemp d) (getbuffer uf)) as [lg|e]; simpl.
  - by rewrite lookup_insert_eq, delete_insert_id.
  - destruct (is_Exception e); simpl;
      by rewrite lookup_insert_eq, delete_insert_id.
Qed.

Lemma keeps_disk_load_log uf logs :
  keeps_disk (load_log (SpectraFigure:=F) PyNS mktemp uf logs).
Proof.
  intros w. rewrite load_log_spec.
  destruct (Log_init _ _ _) as [lg|e]; [done|]. by destruct (is_Exception e).
Qed.

Lemma keeps_disk_load_logs files logs :
  keeps_disk (load_logs (SpectraFigure:=F) PyNS mktemp files logs).
Proof.
  revert logs. induction files as [|uf files IH]; intros logs; simpl.
  - apply keeps_disk_ret.
  - apply keeps_disk_bind; auto using keeps_disk_load_log.
Qed.

(** C6.  One turn of the ingestion loop writes the upload to a file that
    did not exist, hands that path and content to the log constructor,
    and removes the file again on each of its three ways out: the
    constructor returns a log, it raises an [Exception] (reported, the
    loop goes on), or it raises something [except Exception] does not
    catch (the run ends).  The disk is then as it was before the turn,
    and so it is after the whole loop. *)
Theorem temp_file_removed uf logs (w : world F) :
  let path := mktemp (disk w) in
  let after := load_log PyNS mktemp uf logs w in
  disk w !! path = None ∧
  disk after.2 !! path = None ∧
  disk after.2 = disk w ∧
  after.1 = match Log_init PyNS path (getbuffer uf) with
            | Ok lg => Ok (dict_set (name uf) lg logs)
            | Raise e => if is_Exception e then Ok logs else Raise e
            end ∧
  ∀ files, disk (load_logs PyNS mktemp files logs w).2 = disk w.
Proof.
  intros path after.
  assert (Hd : disk after.2 = disk w) by apply keeps_disk_load_log.
  split; [apply mktemp_fresh|]. split; [rewrite Hd; apply mktemp_fresh|].
  split; [done|]. split.
  - subst after. rewrite load_log_spec. fold path.
    destruct (Log_init _ _ _) as [lg|e]; [done|]. by destruct (is_Exception e).
  - intros files. apply keeps_disk_load_logs.
Qed.

End TempFiles.

(** The theorem at work on a file the engine refuses. *)
Lemma temp_file_removed_witness :
  disk (load_log (SpectraFigure:=string) Toy.engine Toy.mktemp Toy.bad []
          Toy.world0).2 = disk Toy.world0.
Proof.
  exact (proj1 (proj2 (proj2 (temp_file_removed Toy.engine Toy.mktemp
                                toy_mktemp_fresh Toy.bad [] Toy.world0)))).
Defined.

(** ** The position tabs *)

Section PositionTabs.
Variable PyNS : Engine.
Context {F : Type}.

Lemma has_required_false (df_plot : DataFrame) :
  has_required df_plot = false ↔
  ∃ c, c ∈ required_cols ∧ LStr c ∉ flat_labels (columns df_plot).
Proof.
  unfold has_required, required_cols; simpl. split.
  - intros H.
    destruct (decide (LStr "Leq A" ∈ flat_labels (columns df_plot)));
      [|exists "Leq A"; split; [set_solver|done]].
    destruct (decide (LStr "L90 A" ∈ flat_labels (columns df_plot)));
      [|exists "L90 A"; split; [set_solver|done]].
    destruct (decide (LStr "Lmax A" ∈ flat_labels (columns df_plot)));
      [|exists "Lmax A"; split; [set_solver|done]].
    by rewrite !bool_decide_true in H.
  - intros (c & Hc & Hmiss).
    apply list_elem_of_In in Hc. simpl in Hc.
    destruct Hc as [<-|[<-|[<-|[]]]];
      rewrite (bool_decide_false _ Hmiss); simpl;
      by rewrite ?andb_false_r.
Qed.

(** C7.  In a tab whose upload has a log, with aggregation applied, an
    [Exception] raised by the interval aggregation puts one element on
    the page: the error naming that upload, in that tab.  No chart, no
    heading and no table follow, the raw table is not used instead, and
    the loop goes on to the next tab. *)
Theorem aggregation_failure_reported logs period tab uf log e (w : world F) :
  dict_get (name uf) logs = Some log →
  st.apply_agg (session_state w) = Some true →
  as_interval PyNS log period = Raise e →
  is_Exception e = true →
  position_tab PyNS logs period (tab, uf) w =
    (Ok (),
     mkWorld (session_state w) (disk w)
       (page w ++ [(tab, st.error
                           [st.Lit ("Failed to apply integration period for `"
                                    +:+ name uf +:+ "`: " +:+ exn_msg e)])])).
Proof.
  intros Hlog Hagg Hfail Hexn.
  unfold position_tab. rewrite Hlog.
  unfold df_used_of, session_get, mbind, run_bind, get_session; simpl.
  rewrite Hagg; simpl.
  unfold try_except, mbind, run_bind, call; simpl.
  by rewrite Hfail, Hexn.
Qed.

(** C8, as the code has it.  When a required column is missing from the
    flattened table, each of the two charts is replaced by the same
    warning, which spells out the whole required set (the columns that
    are present included), and the heading and the full table follow. *)
Theorem missing_columns_warning tab df_used subheader (w : world F) :
  (∃ c, c ∈ required_cols ∧
        LStr c ∉ flat_labels (columns (df_plot_of df_used))) →
  position_view tab df_used subheader w =
    (Ok (),
     mkWorld (session_state w) (disk w)
       (page w ++ [(tab, missing_warning subheader);
                   (tab, missing_warning subheader);
                   (tab, st.subheader subheader);
                   (tab, st.dataframe df_used true)])) ∧
  named_columns (missing_warning (SpectraFigure:=F) subheader)
  = ["Leq A"; "L90 A"; "Lmax A"].
Proof.
  intros Hmiss%has_required_false. split; [|done].
  unfold position_view, mbind, run_bind. rewrite Hmiss.
  unfold draw; simpl. by rewrite <-!app_assoc.
Qed.

End PositionTabs.

(** C7 at work: the toy engine cannot aggregate to 30 minutes. *)
Lemma aggregation_failure_reported_witness :
  position_tab (SpectraFigure:=string) Toy.engine [("good.csv", Toy.master)]
    "30min" (st.Tab 1, Toy.good)
    (mkWorld (st.mkSession (Some true) (Some "30min")) ∅ [])
  = (Ok (),
     mkWorld (st.mkSession (Some true) (Some "30min")) ∅
       [(st.Tab 1,
         st.error [st.Lit ("Failed to apply integration period for `"
                           +:+ "good.csv" +:+ "`: "
                           +:+ "period finer than the data")])]).
Proof.
  apply (aggregation_failure_reported Toy.engine [("good.csv", Toy.master)]
           "30min" (st.Tab 1) Toy.good Toy.master
           (Exn ValueError "period finer than the data")
           (mkWorld (st.mkSession (Some true) (Some "30min")) ∅ []));
    reflexivity.
Defined.

(** C8 at work: a table without [Lmax A]. *)
Lemma missing_columns_warning_witness :
  page (position_view (SpectraFigure:=string) (st.Tab 1) Toy.no_lmax
          "Raw Survey Data" Toy.world0).2
  = [(st.Tab 1, missing_warning "Raw Survey Data");
     (st.Tab 1, missing_warning "Raw Survey Data");
     (st.Tab 1, st.subheader "Raw Survey Data");
     (st.Tab 1, st.dataframe Toy.no_lmax true)].
Proof.
  assert (H : ∃ c, c ∈ required_cols ∧
                   LStr c ∉ flat_labels (columns (df_plot_of Toy.no_lmax))).
  { exists "Lmax A". split; [unfold required_cols; set_solver|].
    cbn. rewrite !elem_of_cons, elem_of_nil. intros [?|[?|[?|[]]]]; discriminate. }
  rewrite (proj1 (missing_columns_warning (F:=string) (st.Tab 1) Toy.no_lmax
                    "Raw Survey Data" Toy.world0 H)).
  reflexivity.
Defined.

(** C8, as the specification words it, fails on a table that lacks only
    [Lmax A]: the missing set is that one column, and no element of the
    tab names that set. *)
Lemma missing_set_not_named :
  missing_cols (df_plot_of Toy.no_lmax) = ["Lmax A"] ∧
  ¬ ∃ e : st.element string,
      (st.Tab 1, e) ∈ page (position_view (st.Tab 1) Toy.no_lmax
                              "Raw Survey Data" Toy.world0).2 ∧
      named_columns e ≡ₚ missing_cols (df_plot_of Toy.no_lmax).
Proof.
  assert (Hmiss : missing_cols (df_plot_of Toy.no_lmax) = ["Lmax A"])
    by (vm_compute; reflexivity).
  split; [done|]. rewrite Hmiss. intros (e & Hin & Hperm).
  apply Permutation_length in Hperm.
  assert (Hpage : page (position_view (SpectraFigure:=string) (st.Tab 1)
                          Toy.no_lmax "Raw Survey Data" Toy.world0).2
                  = [(st.Tab 1, missing_warning "Raw Survey Data");
                     (st.Tab 1, missing_warning "Raw Survey Data");
                     (st.Tab 1, st.subheader "Raw Survey Data");
                     (st.Tab 1, st.dataframe Toy.no_lmax true)])
    by reflexivity.
  rewrite Hpage, !elem_of_cons, elem_of_nil in Hin.
  destruct Hin as [?|[?|[?|[?|[]]]]]; simplify_eq; discriminate.
Qed.

(** ** What a part of the run draws *)

Section PageFacts.
Context {F : Type}.

Variable P : st.element F → Prop.

Lemma draws_only_quiet {A} (m : @run F A) :
  (∀ w, page (m w).2 = page w) → draws_only P m.
Proof. intros H w. exists []. by rewrite H, app_nil_r. Qed.

Lemma draws_only_ret {A} (a : A) : draws_only P (mret a).
Proof. by apply draws_only_quiet. Qed.

Lemma draws_only_call {A} (o : outcome A) : draws_only P (call o).
Proof. by apply draws_only_quiet. Qed.

Lemma draws_only_draw c e : P e → draws_only P (draw c e).
Proof. intros He w. exists [(c, e)]. split; [done|]. by repeat constructor. Qed.

Lemma draws_only_bind {A B} (m : @run F A) (f : A → @run F B) :
  draws_only P m → (∀ a, draws_only P (f a)) → draws_only P (m ≫= f).
Proof.
  intros Hm Hf w. unfold mbind, run_bind.
  destruct (Hm w) as (more & Hp & Hall).
  destruct (m w) as [[a|e] w1]; simpl in *; [|by exists more].
  destruct (Hf a w1) as (more' & Hp' & Hall').
  exists (more ++ more'). rewrite Hp', Hp, app_assoc. split; [done|].
  by apply Forall_app.
Qed.

Lemma draws_only_try_except {A} (body : @run F A) handler :
  draws_only P body → (∀ e, draws_only P (handler e)) →
  draws_only P (try_except body handler).
Proof.
  intros Hb Hh w. unfold try_except.
  destruct (Hb w) as (more & Hp & Hall).
  destruct (body w) as [[a|e] w1]; simpl in *; [by exists more|].
  destruct (is_Exception e); [|by exists more].
  destruct (Hh e w1) as (more' & Hp' & Hall').
  exists (more ++ more'). rewrite Hp', Hp, app_assoc. split; [done|].
  by apply Forall_app.
Qed.

Lemma draws_only_for_each {A} (xs : list A) body :
  (∀ x, draws_only P (body x)) → draws_only P (for_each xs body).
Proof.
  intros Hb. induction xs as [|x xs IH]; simpl.
  - apply draws_only_ret.
  - apply draws_only_bind; auto.
Qed.

Lemma draws_only_session_get {A} (field : st.SessionState → option A) key :
  draws_only P (session_get field key).
Proof.
  apply draws_only_quiet. intros w.
  unfold session_get, mbind, run_bind; simpl.
  by destruct (field (session_state w)).
Qed.

End PageFacts.

(** The routine cases: a sequence of calls and drawings. *)
Ltac draws :=
  repeat first [ by apply draws_only_draw
               | apply draws_only_call
               | apply draws_only_ret
               | apply draws_only_session_get
               | apply draws_only_bind; [|intros ?] ].

Lemma drawn_tabs_app {F} (p q : list (st.container * st.element F)) :
  drawn_tabs (p ++ q) = drawn_tabs p ++ drawn_tabs q.
Proof. apply omap_app. Qed.

Lemma drawn_tabs_not_tabs {F} (p : list (st.container * st.element F)) :
  Forall (fun ce => not_tabs ce.2) p → drawn_tabs p = [].
Proof.
  induction 1 as [|[c e] p He _ IH]; [done|].
  unfold drawn_tabs in *. by destruct e.
Qed.

(** ** The tab set *)

Lemma keys_dict_set_new {V} (k : string) (v : V) (d : dict V) :
  k ∉ keys d → keys (dict_set k v d) = keys d ++ [k].
Proof.
  unfold keys. induction d as [|[k' v'] d IH]; simpl; [done|].
  rewrite not_elem_of_cons. intros [Hne Hnotin].
  rewrite bool_decide_false by done. csimpl. f_equal. by apply IH.
Qed.

Lemma keys_dict_set_old {V} (k : string) (v : V) (d : dict V) :
  k ∈ keys d → keys (dict_set k v d) = keys d.
Proof.
  unfold keys. induction d as [|[k' v'] d IH]; simpl.
  - by intros ?%elem_of_nil.
  - case_bool_decide as Hk; [done|].
    rewrite elem_of_cons. intros [?|Hin]; [done|]. csimpl. f_equal. by apply IH.
Qed.

(** Tab number [k+i] meets upload number [i] when there are as many tabs
    as uploads. *)
Lemma zip_tabs (k : nat) (ufs : list UploadedFile) :
  zip (st.Tab <$> seq k (length ufs)) ufs
  = imap (fun i uf => (st.Tab (k + i), uf)) ufs.
Proof.
  revert k. induction ufs as [|uf ufs IH]; intros k; [done|]. csimpl.
  rewrite Nat.add_0_r. f_equal. rewrite IH. apply imap_ext.
  intros i x _. simpl. do 2 f_equal. lia.
Qed.

Section Tabs.
Variable PyNS : Engine.
Context {F : Type}.
Variable spectra_figure :
  string → DataFrame → list string → list label → outcome F.
Variable mktemp : gmap string string → string.
Hypothesis mktemp_fresh : ∀ d, d !! mktemp d = None.

(** When every file parses, the loop draws nothing, restores the disk
    and enters the names in upload order. *)
Lemma load_logs_all_parse files logs (w : world F) :
  (∀ uf path, uf ∈ files → ∃ lg, Log_init PyNS path (getbuffer uf) = Ok lg) →
  NoDup (keys logs ++ (name <$> files)) →
  ∃ logs', load_logs PyNS mktemp files logs w = (Ok logs', w) ∧
           keys logs' = keys logs ++ (name <$> files).
Proof.
  revert logs. induction files as [|uf files IH]; intros logs Hparse Hnodup.
  - exists logs. by rewrite app_nil_r.
  - simpl. unfold mbind, run_bind.
    rewrite (load_log_spec PyNS mktemp mktemp_fresh).
    destruct (Hparse uf (mktemp (disk w))) as [lg ->]; [by left|].
    destruct (IH (dict_set (name uf) lg logs)) as (logs' & -> & Hkeys).
    + intros uf' path Hin. apply Hparse. by right.
    + rewrite keys_dict_set_new, <-app_assoc; [done|].
      apply NoDup_app in Hnodup as (_ & Hdisj & _).
      intros Hin. apply (Hdisj _ Hin). by left.
    + exists logs'. split; [done|].
      rewrite Hkeys, keys_dict_set_new, <-app_assoc; [done|].
      apply NoDup_app in Hnodup as (_ & Hdisj & _).
      intros Hin. apply (Hdisj _ Hin). by left.
Qed.

Lemma draws_only_summary_tab s pos_list :
  draws_only not_tabs (summary_tab spectra_figure s pos_list).
Proof.
  unfold summary_tab. apply draws_only_bind; [draws|]. intros _.
  apply draws_only_bind; [destruct (summary_df s); draws|].
  intros _. apply draws_only_for_each. intros [title df_data].
  unfold spectra_chart. apply draws_only_bind; [draws|].
  intros [tidy|]; [|draws].
  destruct (filter _ _); draws.
Qed.

Lemma draws_only_position_view tab df_used subheader :
  draws_only not_tabs (position_view (SpectraFigure:=F) tab df_used subheader).
Proof.
  unfold position_view.
  repeat (apply draws_only_bind; [|intros ?]);
    try destruct (has_required _); draws.
Qed.

Lemma draws_only_position_tabs logs period files :
  draws_only not_tabs (position_tabs (SpectraFigure:=F) PyNS logs period files).
Proof.
  apply draws_only_for_each. intros [tab uf]. unfold position_tab.
  destruct (dict_get _ _); [|draws].
  apply draws_only_bind.
  - unfold df_used_of. apply draws_only_bind; [draws|].
    intros [|]; apply draws_only_try_except; try intros ?; draws.
  - intros [[df_used subheader]|]; [apply draws_only_position_view|draws].
Qed.

Lemma draws_only_sidebar w :
  draws_only not_tabs (sidebar (SpectraFigure:=F) w).
Proof.
  unfold sidebar.
  repeat (apply draws_only_bind; [by apply draws_only_draw|intros _]).
  destruct (files w); [apply draws_only_call|].
  repeat (apply draws_only_bind; [by apply draws_only_draw|intros _]).
  apply draws_only_bind.
  { unfold period_check. apply draws_only_bind; [apply draws_only_session_get|].
    intros last. case_bool_decide; [|apply draws_only_ret].
    by apply draws_only_quiet. }
  intros _. apply draws_only_bind; [by apply draws_only_draw|intros _].
  apply draws_only_bind; [|intros _; apply draws_only_ret].
  apply draws_only_quiet. intros w1. by rewrite apply_action_spec; destruct (apply_agg_btn w).
Qed.

End Tabs.

(** The toy survey never raises. *)
Lemma toy_add_logs (survey : Survey Toy.engine) (logs : dict (Log Toy.engine)) :
  ∃ survey', add_logs Toy.engine survey logs = Ok survey'.
Proof.
  revert survey. induction logs as [|[name lg] logs IH]; intros survey.
  - by eexists.
  - simpl. apply IH.
Qed.

Lemma toy_survey_tables (logs : dict (Log Toy.engine)) (e : exn) :
  survey_tables Toy.engine logs ≠ Raise e.
Proof.
  destruct logs as [|[name lg] logs]; [done|].
  unfold survey_tables, step at 1 2; simpl.
  change (attach_logs Toy.engine [] ((name, lg) :: logs))
    with (add_logs Toy.engine [] ((name, lg) :: logs)).
  by destruct (toy_add_logs [] ((name, lg) :: logs)) as [survey' ->].
Qed.

Lemma toy_parses (uf : UploadedFile) (path : string) :
  getbuffer uf ≠ "" → ∃ lg, Log_init Toy.engine path (getbuffer uf) = Ok lg.
Proof. intros Hne. exists Toy.master. simpl. by rewrite bool_decide_false. Qed.

(** ** A file that fails to parse *)

(** C2.  A batch whose first file fails to parse and whose second file
    parses: the failure is reported for the first file, the second file is
    loaded and is the only position tab, but that tab is paired with the
    first upload and shows the error of a missing log instead of the data
    of the file it is labelled with. *)
Theorem failed_file_takes_the_tab :
  script Toy.engine Toy.spectra_figure Toy.mktemp
    (mkWidgets [Toy.bad; Toy.good] 15 "minute(s)" false) Toy.world0
  = (Ok (),
     mkWorld (st.mkSession (Some false) (Some "15min")) ∅
       [(st.Sidebar, st.logo "Logo.png");
        (st.Sidebar, st.widget "Select one or more CSV files");
        (st.Sidebar,
         st.widget "Insert new integration period (must be larger than data)");
        (st.Sidebar, st.widget "Please select time period");
        (st.Sidebar, st.widget "Apply Integration Period");
        (st.Main,
         st.error [st.Lit "Failed to load `bad.csv` into PyNS: empty file"]);
        (st.Main, st.tabs ["Summary"; "good.csv"]);
        (st.Tab 0, st.subheader "BS8233 Residential Summary");
        (st.Tab 0, st.warning [st.Lit "Summary unavailable: "]);
        (st.Tab 1, st.error [st.Lit "Log for `bad.csv` not found."])]).
Proof. vm_compute. reflexivity. Qed.

(** ** Facts about the pandas fragment *)

Lemma range_index_numbered (rs : list row) :
  range_index rs = numbered (cells <$> rs).
Proof. unfold range_index, numbered. by rewrite imap_fmap. Qed.

Lemma cells_numbered (cs : list (list value)) : cells <$> numbered cs = cs.
Proof.
  apply list_eq. intros i. unfold numbered.
  rewrite list_lookup_fmap, list_lookup_imap. by destruct (cs !! i).
Qed.

Lemma length_numbered (cs : list (list value)) : length (numbered cs) = length cs.
Proof. apply length_imap. Qed.

Lemma length_remove_dups {A} `{EqDecision A} (l : list A) :
  (length (remove_dups l) ≤ length l)%nat.
Proof.
  induction l as [|x l IH]; simpl; [done|].
  case_decide; simpl; lia.
Qed.

Lemma length_spectra_bands (ps : list (label * label)) :
  (length (spectra_bands ps) ≤ length ps)%nat.
Proof. unfold spectra_bands. rewrite length_take, length_fmap. lia. Qed.

(** The index levels [names], numbered from [k], entered in front of a
    flat header that has none of them. *)
Lemma insert_levels (names : list label) (k : nat) idx ls rs :
  NoDup names → (∀ n, n ∈ names → n ∉ ls) →
  foldr (fun '(i, name) acc => obj ← acc; insert0 name (level_value i) obj)
        (Ok (mkDataFrame idx (Flat ls) rs))
        (imap (fun i n => (k + i, n)%nat) names)
  = Ok (mkDataFrame idx (Flat (names ++ ls))
          ((fun r => Row (key r)
                       (((fun j => level_value j r) <$> seq k (length names))
                        ++ cells r)) <$> rs)).
Proof.
  revert k. induction names as [|n names IH]; intros k Hnodup Hdisj.
  - simpl. f_equal. f_equal. rewrite <-(list_fmap_id rs) at 1.
    apply list_fmap_ext. by intros _ [] _.
  - rewrite imap_cons. simpl.
    rewrite (imap_ext _ (fun i n => (S k + i, n)%nat)); last first.
    { intros i x _. simpl. f_equal. lia. }
    apply NoDup_cons in Hnodup as [Hn Hnodup].
    rewrite IH; [|done|by intros n' Hin; apply Hdisj; right].
    unfold mbind, outcome_bind, insert0; simpl.
    rewrite bool_decide_false; last first.
    { rewrite elem_of_app. intros [?|?]; [done|].
      by eapply Hdisj; [left|]. }
    f_equal. f_equal. rewrite <-list_fmap_compose.
    apply list_fmap_ext. intros _ r _. simpl. by rewrite Nat.add_0_r.
Qed.

Lemma length_default_index_names (df : DataFrame) :
  length (default_index_names df) = length (index_names (index df)).
Proof.
  unfold default_index_names, index_names.
  destruct (index df) as [[]|ns]; try done. by rewrite length_imap.
Qed.

(** [reset_index] on a flat header that has none of the index names. *)
Lemma reset_index_flat (df : DataFrame) (ls : list label) :
  columns df = Flat ls →
  NoDup (default_index_names df) →
  (∀ n, n ∈ default_index_names df → n ∉ ls) →
  reset_index df
  = Ok (mkDataFrame (Index LNone) (Flat (default_index_names df ++ ls))
          (numbered ((fun r => ((fun j => level_value j r)
                                  <$> seq 0 (length (index_names (index df))))
                               ++ cells r) <$> rows df))).
Proof.
  intros Hcols Hnodup Hdisj. unfold reset_index.
  destruct df as [idx cols rs]. simpl in Hcols. subst cols.
  rewrite (insert_levels _ 0) by done.
  unfold mbind, outcome_bind. simpl. f_equal. f_equal.
  rewrite range_index_numbered, <-list_fmap_compose.
  by rewrite length_default_index_names.
Qed.

Lemma numbered_cons_cells (v : value) (cs : list (list value)) :
  (fun r => Row (key r) (v :: cells r)) <$> numbered cs
  = numbered ((fun c => v :: c) <$> cs).
Proof. unfold numbered. by rewrite fmap_imap, imap_fmap. Qed.

Lemma length_slice {A} (start stop : nat) (l : list A) :
  (stop ≤ length l)%nat → length (slice start stop l) = (stop - start)%nat.
Proof. intros H. unfold slice. rewrite length_drop, length_take. lia. Qed.

(** The block of a position whose columns are all there. *)
Lemma spectra_block_spec (df : DataFrame) ps (i : nat) (pos : string) :
  columns df = MultiIndex ps →
  let bands := spectra_bands ps in
  ((i + 1) * length bands ≤ shape1 df)%nat →
  NoDup (level_labels (index df) bands) →
  (∀ n, n ∈ level_labels (index df) bands → n ∉ band_labels bands) →
  spectra_block df bands i pos
  = Ok (mkDataFrame (Index LNone) (Flat (blocks_header df bands))
          (numbered (tidy_cells (tagged (index df) bands)
                                (length (index_names (index df)))
                                (length bands) i pos <$> rows df))).
Proof.
  intros Hcols bands Hfits Hnodup Hdisj.
  unfold shape1 in Hfits. rewrite Hcols in Hfits. simpl in Hfits.
  unfold spectra_block, iloc_cols, set_columns, shape1. rewrite Hcols. simpl.
  rewrite length_slice by done.
  rewrite bool_decide_true by (rewrite length_fmap; lia).
  unfold mbind at 1, outcome_bind.
  set (sub := mkDataFrame (index df) (Flat (LStr ∘ str <$> bands)) _).
  assert (Hnames : default_index_names sub = level_labels (index df) bands)
    by reflexivity.
  rewrite (reset_index_flat sub (band_labels bands)) by (by rewrite ?Hnames).
  rewrite Hnames. unfold mbind, outcome_bind, rename_columns, contains.
  cbn [columns index rows].
  fold (period_key (index df)). fold (tidy_header (index df) bands).
  unfold blocks_header, tagged.
  assert (Hrows : (fun r => ((fun j => level_value j r)
                               <$> seq 0 (length (index_names (index sub))))
                            ++ cells r) <$> rows sub
                  = tidy_cells false (length (index_names (index df)))
                               (length bands) i pos <$> rows df).
  { subst sub. cbn [rows index]. by rewrite <-list_fmap_compose. }
  rewrite Hrows.
  destruct (bool_decide (LStr "Position" ∈ tidy_header (index df) bands)) eqn:Hpos;
    cbn [negb].
  - done.
  - apply bool_decide_eq_false in Hpos.
    unfold insert0. cbn [columns index rows].
    rewrite bool_decide_false by done.
    by rewrite numbered_cons_cells, <-list_fmap_compose.
Qed.

(** Block after block: the loop collects the blocks of the first [k]
    positions, [k] being where the list ends or the columns run out. *)
Lemma spectra_blocks_spec (df : DataFrame) ps (pos_names : list string) (i k : nat) :
  columns df = MultiIndex ps →
  let bands := spectra_bands ps in
  NoDup (level_labels (index df) bands) →
  (∀ n, n ∈ level_labels (index df) bands → n ∉ band_labels bands) →
  (k ≤ length pos_names)%nat →
  ((i + k) * length bands ≤ shape1 df)%nat →
  (k = length pos_names ∨ (shape1 df < (i + k + 1) * length bands)%nat) →
  spectra_blocks df bands i pos_names
  = Ok (imap (fun j pos =>
                mkDataFrame (Index LNone) (Flat (blocks_header df bands))
                  (numbered (tidy_cells (tagged (index df) bands)
                                        (length (index_names (index df)))
                                        (length bands) (i + j) pos <$> rows df)))
             (take k pos_names)).
Proof.
  intros Hcols bands Hnodup Hdisj. revert i k.
  induction pos_names as [|pos rest IH]; intros i k Hk Hfits Hend.
  - by rewrite take_nil.
  - simpl. destruct k as [|k].
    + rewrite bool_decide_true; [done|].
      destruct Hend as [?|Hend]; [done|]. by rewrite Nat.add_0_r in Hend.
    + assert (Hfit1 : ((i + 1) * length bands ≤ shape1 df)%nat) by nia.
      rewrite bool_decide_false by lia.
      rewrite (spectra_block_spec df ps) by done.
      unfold mbind at 1, outcome_bind.
      rewrite (IH (S i) k); [|simpl in Hk; lia|lia|simpl in *; lia].
      unfold mbind, outcome_bind. simpl. rewrite Nat.add_0_r. do 2 f_equal.
      apply imap_ext. intros j p _. simpl. do 4 f_equal. lia.
Qed.

Lemma cells_mjoin_rows (blocks : list DataFrame) :
  cells <$> mjoin (rows <$> blocks)
  = mjoin ((fun b => cells <$> rows b) <$> blocks).
Proof.
  induction blocks as [|b bs IH]; [done|]. csimpl. by rewrite fmap_app, IH.
Qed.

(** Blocks that share one header are stacked. *)
Lemma concat_same_header (hdr : list label) (blocks : list DataFrame) :
  blocks ≠ [] →
  Forall (fun b => columns b = Flat hdr) blocks →
  concat blocks
  = Ok (mkDataFrame (Index LNone) (Flat hdr)
          (numbered (mjoin ((fun b => cells <$> rows b) <$> blocks)))).
Proof.
  intros Hne Hall. destruct blocks as [|b bs]; [done|].
  apply Forall_cons in Hall as [Hb Hbs]. unfold concat. rewrite Hb. simpl.
  assert (Hsame : forallb (fun b' => bool_decide (flat_labels (columns b') = hdr)) bs = true).
  { apply forallb_forall. intros b' Hin%list_elem_of_In.
    rewrite Forall_forall in Hbs. rewrite (Hbs b' Hin). by apply bool_decide_eq_true_2. }
  rewrite Hsame. f_equal. f_equal.
  rewrite range_index_numbered. f_equal. apply (cells_mjoin_rows (b :: bs)).
Qed.

(** The reshaped table of the first [k] positions, [k >= 1]. *)
Lemma spectra_to_rows_blocks (df : DataFrame) ps (pos_names : list string) (k : nat) :
  columns df = MultiIndex ps →
  let bands := spectra_bands ps in
  NoDup (level_labels (index df) bands) →
  (∀ n, n ∈ level_labels (index df) bands → n ∉ band_labels bands) →
  (0 < k ≤ length pos_names)%nat →
  (k * length bands ≤ shape1 df)%nat →
  (k = length pos_names ∨ (shape1 df < (k + 1) * length bands)%nat) →
  spectra_to_rows (Some df) pos_names
  = Ok (Some (blocks_table df bands (take k pos_names))).
Proof.
  intros Hcols bands Hnodup Hdisj Hk Hfits Hend. subst bands.
  unfold spectra_to_rows. rewrite Hcols. cbv zeta.
  rewrite (spectra_blocks_spec df ps pos_names 0 k) by (try done; lia).
  unfold mbind, outcome_bind.
  rewrite (concat_same_header (blocks_header df (spectra_bands ps))).
  - unfold fmap at 1, outcome_fmap, blocks_table, block_rows. do 4 f_equal.
    rewrite fmap_imap. f_equal. apply imap_ext. intros j p _. simpl.
    by rewrite cells_numbered.
  - destruct pos_names as [|p rest]; [simpl in Hk; lia|].
    destruct k; [lia|]. done.
  - apply Forall_forall. intros b Hb.
    apply list_elem_of_lookup in Hb as [j Hj].
    rewrite list_lookup_imap in Hj.
    destruct (take k pos_names !! j); simplify_eq/=. done.
Qed.

Lemma length_block_rows (df : DataFrame) bands (first : nat) (pos_names : list string) :
  length (block_rows df bands first pos_names)
  = (length pos_names * length (rows df))%nat.
Proof.
  unfold block_rows. revert first.
  induction pos_names as [|p rest IH]; intros first; [done|].
  rewrite imap_cons. simpl. rewrite length_app, length_fmap. f_equal.
  rewrite <-(IH (S first)). f_equal. f_equal. apply imap_ext.
  intros j q _. simpl. do 2 f_equal. lia.
Qed.

Lemma length_spectra_bands_eq (ps : list (label * label)) :
  length (spectra_bands ps) = length (remove_dups ps.*2).
Proof.
  unfold spectra_bands. rewrite length_take.
  pose proof (length_remove_dups ps.*2). lia.
Qed.

(** C1, as the code has it.  Take a two-level table with B distinct inner
    labels and a non-empty list of P positions, such that the columns the
    index levels turn into are distinct and none of them is a band label
    (otherwise [reset_index] refuses).  If the table has P*B columns, the
    result is the table of the P blocks in the order of the position list,
    and it has P times the rows of the table.  If it has fewer, the result
    is the table of the blocks of the first k positions only, k being the
    number of whole blocks the columns hold: the later positions are
    absent and nothing is padded.  In both cases a block holds the rows of
    the table in their order, each with the values of the index levels
    followed by the cells of the block's B columns, under the index names
    (the period key renamed to Period) and the band labels as strings;
    the position's name is put in front of each row, in a Position column,
    unless the block already has a column of that name ([tagged]). *)
Theorem reshape_blocks (df : DataFrame) ps (pos_names : list string) :
  columns df = MultiIndex ps →
  let bands := spectra_bands ps in
  let B := length bands in
  let P := length pos_names in
  NoDup (level_labels (index df) bands) →
  (∀ n, n ∈ level_labels (index df) bands → n ∉ band_labels bands) →
  pos_names ≠ [] →
  B = length (remove_dups ps.*2) ∧
  (shape1 df = (P * B)%nat →
   spectra_to_rows (Some df) pos_names
   = Ok (Some (blocks_table df bands pos_names)) ∧
   length (rows (blocks_table df bands pos_names)) = (P * length (rows df))%nat) ∧
  ((shape1 df < P * B)%nat →
   ∃ k, (0 < k < P)%nat ∧ (k * B ≤ shape1 df < (k + 1) * B)%nat ∧
        spectra_to_rows (Some df) pos_names
        = Ok (Some (blocks_table df bands (take k pos_names)))).
Proof.
  intros Hcols bands B P Hnodup Hdisj Hpos.
  assert (HP : (0 < P)%nat).
  { subst P. destruct pos_names; [done|simpl; lia]. }
  assert (HB : (B ≤ shape1 df)%nat).
  { subst B bands. unfold shape1. rewrite Hcols. apply length_spectra_bands. }
  split; [apply length_spectra_bands_eq|]. split.
  - intros Hshape. split.
    + rewrite (spectra_to_rows_blocks df ps pos_names P); try done.
      * subst P. by rewrite firstn_all.
      * fold bands B. lia.
      * by left.
    + simpl. by rewrite length_numbered, length_block_rows.
  - intros Hshape.
    assert (HB0 : (0 < B)%nat) by (destruct B; [lia|lia]).
    exists (shape1 df / B)%nat.
    pose proof (Nat.Div0.mul_div_le (shape1 df) B) as Hle.
    pose proof (Nat.mul_succ_div_gt (shape1 df) B ltac:(lia)) as Hgt.
    assert (Hk1 : (0 < shape1 df / B)%nat)
      by (apply Nat.div_str_pos; lia).
    assert (Hk2 : (shape1 df / B < P)%nat)
      by (apply Nat.Div0.div_lt_upper_bound; lia).
    split; [lia|]. split; [lia|].
    apply (spectra_to_rows_blocks df ps); try done.
    + fold P. lia.
    + fold bands B. lia.
    + right. fold bands B. lia.
Qed.

(** C1 at work: two positions, two bands, four columns. *)
Lemma reshape_blocks_witness :
  spectra_to_rows (Some Toy.spectra) ["a.csv"; "b.csv"]
  = Ok (Some (mkDataFrame (Index LNone)
                (Flat [LStr "Position"; LStr "Period"; LStr "63"; LStr "125"])
                [Row [VInt 0] [VStr "a.csv"; VStr "Daytime"; VInt 1; VInt 2];
                 Row [VInt 1] [VStr "a.csv"; VStr "Night"; VInt 5; VInt 6];
                 Row [VInt 2] [VStr "b.csv"; VStr "Daytime"; VInt 3; VInt 4];
                 Row [VInt 3] [VStr "b.csv"; VStr "Night"; VInt 7; VInt 8]])).
Proof.
  assert (Hnodup : NoDup [LStr "Period"]) by apply NoDup_singleton.
  assert (Hdisj : ∀ n, n ∈ [LStr "Period"] → n ∉ [LStr "63"; LStr "125"]).
  { intros n ->%list_elem_of_singleton.
    rewrite !elem_of_cons, elem_of_nil. intros [?|[?|[]]]; discriminate. }
  assert (Hpos : ["a.csv"; "b.csv"] ≠ []) by discriminate.
  exact (proj1 (proj1 (proj2 (reshape_blocks Toy.spectra _ ["a.csv"; "b.csv"]
                                eq_refl Hnodup Hdisj Hpos)) eq_refl)).
Defined.

(** C1, as the specification words it, fails in three ways, each on a
    table of exactly P*B columns.  A table that carries the positions in
    its row index keeps them: no row is tagged with the name of the
    position it is listed for.  A table whose index is named like a band
    is refused by [reset_index].  And with no position and no column there
    is nothing to concatenate. *)
Lemma two_level_reshape_exceptions :
  (shape1 Toy.spectra_by_position = (length ["a.csv"] * 2)%nat ∧
   ∃ t, spectra_to_rows (Some Toy.spectra_by_position) ["a.csv"] = Ok (Some t) ∧
        rows t ≠ [] ∧
        ∀ r, r ∈ rows t → VStr "a.csv" ∉ cells r) ∧
  (shape1 Toy.spectra_index_63 = (length ["a.csv"; "b.csv"] * 2)%nat ∧
   spectra_to_rows (Some Toy.spectra_index_63) ["a.csv"; "b.csv"]
   = Raise (Exn ValueError "cannot insert 63, already exists")) ∧
  (shape1 Toy.no_columns = (length (@nil string) * 0)%nat ∧
   spectra_to_rows (Some Toy.no_columns) []
   = Raise (Exn ValueError "No objects to concatenate")).
Proof.
  split; [|split; split; reflexivity].
  split; [reflexivity|]. eexists. split; [vm_compute; reflexivity|].
  split; [discriminate|].
  intros r. cbn [rows]. rewrite !elem_of_cons, elem_of_nil.
  intros [->|[->|[]]]; simpl; rewrite !elem_of_cons, elem_of_nil;
    intros [?|[?|[?|[?|[]]]]]; discriminate.
Qed.

(** ** When the reshaper has nothing to return *)

Lemma spectra_to_rows_present (df : DataFrame) (pos_names : list string) :
  spectra_to_rows (Some df) pos_names ≠ Ok None.
Proof.
  unfold spectra_to_rows. destruct (columns df) as [ls|ps].
  - unfold mbind, outcome_bind. destruct (reset_index df) as [tidy|e]; [|done].
    destruct (contains _ _); [done|]. by destruct (insert0 _ _ _).
  - cbv zeta. unfold mbind, outcome_bind.
    destruct (spectra_blocks _ _ _ _) as [blocks|e]; [|done].
    unfold fmap, outcome_fmap. by destruct (concat blocks).
Qed.

(** C10.  The reshaper returns nothing only when it is given nothing.  On
    a two-level table it always ends in [pd.concat] of the blocks it has
    collected: with no position, or with a table narrower than one block,
    no block is collected and the call raises instead of returning an
    absent or empty table.  (The second case cannot arise: the block width
    is the number of distinct inner labels, never more than the number of
    columns.) *)
Theorem reshape_absent_or_raises :
  (∀ df pos_names, spectra_to_rows df pos_names = Ok None ↔ df = None) ∧
  (∀ df ps pos_names,
      columns df = MultiIndex ps →
      pos_names = [] ∨ (shape1 df < length (spectra_bands ps))%nat →
      spectra_to_rows (Some df) pos_names
      = Raise (Exn ValueError "No objects to concatenate")) ∧
  (∀ df ps, columns df = MultiIndex ps →
            (length (spectra_bands ps) ≤ shape1 df)%nat).
Proof.
  split; [|split].
  - intros [df|] pos_names; [|done]. split; [|done].
    intros H. by apply spectra_to_rows_present in H.
  - intros df ps pos_names Hcols Hempty.
    unfold spectra_to_rows. rewrite Hcols. cbv zeta.
    assert (Hblocks : spectra_blocks df (spectra_bands ps) 0 pos_names = Ok []).
    { destruct pos_names as [|pos rest]; [done|]. simpl.
      destruct Hempty as [?|Hnarrow]; [done|].
      rewrite bool_decide_true; [done|lia]. }
    by rewrite Hblocks.
  - intros df ps Hcols. unfold shape1. rewrite Hcols. apply length_spectra_bands.
Qed.

(** C10 at work: a two-level table and no position. *)
Lemma reshape_absent_or_raises_witness :
  spectra_to_rows (Some Toy.spectra) []
  = Raise (Exn ValueError "No objects to concatenate").
Proof.
  exact (proj1 (proj2 reshape_absent_or_raises) Toy.spectra _ []
               eq_refl (or_introl eq_refl)).
Defined.

(** ** Reshaping a flat table twice *)

Lemma insert0_shape column val (df obj : DataFrame) :
  insert0 column val df = Ok obj →
  index obj = index df ∧ length (rows obj) = length (rows df) ∧
  is_MultiIndex (columns obj) = is_MultiIndex (columns df).
Proof.
  unfold insert0. destruct (columns df) as [ls|ps] eqn:Hcols;
    case_bool_decide; intros [= <-]; simpl; by rewrite length_fmap.
Qed.

Lemma insert_levels_shape (levels : list (nat * label)) (df obj : DataFrame) :
  foldr (fun '(i, name) acc => obj ← acc; insert0 name (level_value i) obj)
        (Ok df) levels = Ok obj →
  index obj = index df ∧ length (rows obj) = length (rows df) ∧
  is_MultiIndex (columns obj) = is_MultiIndex (columns df).
Proof.
  revert obj. induction levels as [|[i name] levels IH]; intros obj; simpl.
  - by intros [= <-].
  - unfold mbind, outcome_bind.
    destruct (foldr _ _ levels) as [obj'|e]; [|done].
    intros (Hi & Hl & Hm)%insert0_shape.
    destruct (IH obj' eq_refl) as (Hi' & Hl' & Hm'). split; [|split]; congruence.
Qed.

(** The shape of a table whose index has been reset. *)
Lemma reset_index_shape (df t : DataFrame) :
  reset_index df = Ok t →
  index t = Index LNone ∧
  (∃ cs, rows t = numbered cs ∧ length cs = length (rows df)) ∧
  is_MultiIndex (columns t) = is_MultiIndex (columns df).
Proof.
  unfold reset_index, mbind, outcome_bind.
  destruct (foldr _ _ _) as [obj|e] eqn:Hfold; [|done].
  apply insert_levels_shape in Hfold as (Hi & Hl & Hm).
  intros [= <-]. simpl. split; [done|]. split; [|done].
  exists (cells <$> rows obj). by rewrite range_index_numbered, length_fmap.
Qed.

(** Resetting the index of numbered rows puts the numbers in front. *)
Lemma range_index_of_numbered (cs : list (list value)) :
  range_index ((fun r => Row (key r) (level_value 0 r :: cells r)) <$> numbered cs)
  = imap (fun i r => Row [VInt (Z.of_nat i)] (VInt (Z.of_nat i) :: cells r))
         (numbered cs).
Proof.
  apply list_eq. intros i. unfold range_index, numbered.
  rewrite !list_lookup_imap, list_lookup_fmap, !list_lookup_imap.
  by destruct (cs !! i).
Qed.

(** What the reshaper returns for a flat table. *)
Lemma tidy_flat_shape (df : DataFrame) ls (pos_names : list string) t1 :
  columns df = Flat ls →
  spectra_to_rows (Some df) pos_names = Ok (Some t1) →
  index t1 = Index LNone ∧
  (∃ cs, rows t1 = numbered cs ∧ length cs = length (rows df)) ∧
  (∃ hdr, columns t1 = Flat hdr ∧ LStr "Position" ∈ hdr).
Proof.
  intros Hcols. unfold spectra_to_rows. rewrite Hcols.
  unfold mbind at 1, outcome_bind.
  destruct (reset_index df) as [tidy|e] eqn:Hreset; [|done].
  apply reset_index_shape in Hreset as (Hi & (cs & Hrows & Hlen) & Hflat).
  rewrite Hcols in Hflat. simpl in Hflat.
  destruct (columns tidy) as [hdr|ps] eqn:Htidy; [|done].
  unfold contains, rename_columns. rewrite Htidy. cbn [columns].
  case_bool_decide as Hpos.
  - intros [= <-]. cbn. split; [done|]. split; [by exists cs|]. by eexists.
  - unfold insert0, mbind, outcome_bind. cbn [columns index rows].
    rewrite bool_decide_false by done. intros [= <-]. cbn.
    split; [done|]. split.
    + exists ((fun c => VStr match pos_names with p :: _ => p | [] => "Pos1" end :: c)
                <$> cs).
      rewrite Hrows, length_fmap. split; [|done].
      apply (numbered_cons_cells _ cs).
    + eexists. split; [done|]. by left.
Qed.

(** C4, as the code has it.  When a flat table reshapes to [t1], a second
    reshape keeps the rows of [t1] in their number and order and keeps its
    columns, without a second Position column, but it is not the identity:
    the row numbers 0, 1, ... come in front as one more column, labelled
    index and renamed to Period (labelled level_0 when [t1] has an index
    column, which is then the one renamed); and when [t1] already has the
    column to be inserted the call raises. *)
Theorem reshape_twice (df : DataFrame) ls (pos_names : list string) t1 :
  columns df = Flat ls →
  spectra_to_rows (Some df) pos_names = Ok (Some t1) →
  let hdr := flat_labels (columns t1) in
  let c := if bool_decide (LStr "index" ∈ hdr) then LStr "level_0"
           else LStr "index" in
  length (rows t1) = length (rows df) ∧
  spectra_to_rows (Some t1) pos_names
  = if bool_decide (c ∈ hdr)
    then Raise (Exn ValueError ("cannot insert " +:+ str c +:+ ", already exists"))
    else Ok (Some (mkDataFrame (Index LNone)
                     (Flat (rename_label (LStr "index") (LStr "Period") <$> c :: hdr))
                     (imap (fun i r => Row [VInt (Z.of_nat i)]
                                         (VInt (Z.of_nat i) :: cells r))
                           (rows t1)))).
Proof.
  intros Hcols Hfirst hdr c.
  destruct (tidy_flat_shape df ls pos_names t1 Hcols Hfirst)
    as (Hi & (cs & Hrows & Hlen) & (hdr' & Hhdr & Hpos)).
  subst c hdr. rewrite Hhdr. cbn [flat_labels].
  split; [by rewrite Hrows, length_numbered|].
  destruct t1 as [idx cols rs]. simpl in Hi, Hrows, Hhdr. subst idx cols rs.
  unfold spectra_to_rows, reset_index, default_index_names, contains.
  cbn [columns index rows imap foldr].
  unfold mbind, outcome_bind, insert0. cbn [columns index rows].
  set (c := if bool_decide (LStr "index" ∈ hdr') then LStr "level_0" else LStr "index").
  case_bool_decide as Hc; [done|].
  unfold rename_columns, py_or. cbn [columns index rows index_name truthy].
  rewrite bool_decide_true; last first.
  { rewrite fmap_cons. right. apply list_elem_of_fmap.
    exists (LStr "Position"). split; [|done].
    unfold rename_label. by rewrite bool_decide_false. }
  by rewrite range_index_of_numbered.
Qed.

(** C4 at work on a flat table of two bands. *)
Lemma reshape_twice_witness :
  length (rows (mkDataFrame (Index LNone)
                  (Flat [LStr "Position"; LStr "Period"; LInt 63; LInt 125])
                  [Row [VInt 0] [VStr "a.csv"; VStr "Daytime"; VInt 1; VInt 2];
                   Row [VInt 1] [VStr "a.csv"; VStr "Night"; VInt 5; VInt 6]]))
  = length (rows Toy.flat_spectra).
Proof.
  exact (proj1 (reshape_twice Toy.flat_spectra _ ["a.csv"] _ eq_refl eq_refl)).
Defined.

(** C4, as the specification words it, fails: the second reshape of a
    flat table has one more column than the first, and other rows. *)
Lemma reshape_twice_differs :
  ∃ t1 t2,
    spectra_to_rows (Some Toy.flat_spectra) ["a.csv"] = Ok (Some t1) ∧
    spectra_to_rows (Some t1) ["a.csv"] = Ok (Some t2) ∧
    columns t2 ≠ columns t1 ∧
    cells <$> rows t2 ≠ cells <$> rows t1.
Proof.
  do 2 eexists. split; [vm_compute; reflexivity|].
  split; [vm_compute; reflexivity|]. split; discriminate.
Qed.

(** ** The L90 cumulative curve *)

Section L90Facts.
Import L90.

Lemma elem_of_uniques (l : list Z) (x : Z) : x ∈ uniques l ↔ x ∈ l.
Proof.
  induction l as [|y l IH]; simpl; [done|].
  rewrite !elem_of_cons, list_elem_of_filter, IH.
  destruct (decide (x = y)); tauto.
Qed.

Lemma NoDup_uniques (l : list Z) : NoDup (uniques l).
Proof.
  induction l as [|y l IH]; simpl; [constructor|].
  apply NoDup_cons. split; [|by apply NoDup_filter].
  rewrite list_elem_of_filter. by intros [? _].
Qed.

#[local] Instance by_index_total : Total by_index.
Proof. intros a b. unfold by_index. lia. Qed.
#[local] Instance by_count_desc_total : Total by_count_desc.
Proof. intros a b. unfold by_count_desc. lia. Qed.
#[local] Instance nan_last_total : Total nan_last.
Proof. intros [a|] [b|]; simpl; auto. lia. Qed.

(** Counting in two disjoint parts. *)
Lemma length_filter_split (P Q R : Z → Prop)
    `{∀ x, Decision (P x), ∀ x, Decision (Q x), ∀ x, Decision (R x)}
    (V : list Z) :
  (∀ v, v ∈ V → (R v ↔ P v ∨ Q v) ∧ ¬ (P v ∧ Q v)) →
  (length (filter P V) + length (filter Q V) = length (filter R V))%nat.
Proof.
  induction V as [|v V IH]; intros HV; [done|].
  rewrite !filter_cons.
  destruct (HV v ltac:(by left)) as [Hiff Hdisj].
  specialize (IH (fun v' Hv' => HV v' ltac:(by right))).
  repeat case_decide; simpl; try lia; tauto.
Qed.

Lemma length_filter_iff (P Q : Z → Prop)
    `{∀ x, Decision (P x), ∀ x, Decision (Q x)} (V : list Z) :
  (∀ v, v ∈ V → P v ↔ Q v) →
  length (filter P V) = length (filter Q V).
Proof.
  induction V as [|v V IH]; intros HV; [done|].
  rewrite !filter_cons.
  pose proof (HV v ltac:(by left)) as Hiff.
  specialize (IH (fun v' Hv' => HV v' ltac:(by right))).
  repeat case_decide; simpl; try lia; tauto.
Qed.

(** The running sum of the counts of strictly ascending bins that cover
    the values: at each bin, how many values are at most the bin. *)
Lemma cumsum_from_counts (V pre bins : list Z) :
  StronglySorted Z.lt (pre ++ bins) →
  (∀ v, v ∈ V → v ∈ pre ++ bins) →
  cumsum_from (length (filter (fun v => v ∈ pre) V))
              ((fun b => (b, occurrences b V)) <$> bins)
  = (fun b => (b, length (filter (fun v => (v ≤ b)%Z) V))) <$> bins.
Proof.
  revert pre. induction bins as [|b bins IH]; intros pre Hsorted Hcover; [done|].
  assert (Hle : ∀ v, v ∈ V → (v ≤ b)%Z ↔ v ∈ pre ∨ v = b).
  { intros v Hv. apply StronglySorted_app in Hsorted as (Hlt & _ & Hb).
    apply StronglySorted_cons in Hb as [Hb _]. rewrite Forall_forall in Hb.
    split.
    - intros Hvb. specialize (Hcover v Hv).
      rewrite elem_of_app, elem_of_cons in Hcover.
      destruct Hcover as [?|[?|Hin]]; [by left|by right|].
      specialize (Hb v Hin). lia.
    - intros [Hin| ->]; [|lia].
      specialize (Hlt v b Hin ltac:(by left)). lia. }
  assert (Hnew : (length (filter (fun v => v ∈ pre) V) + occurrences b V
                  = length (filter (fun v => (v ≤ b)%Z) V))%nat).
  { unfold occurrences. apply length_filter_split. intros v Hv.
    split; [by apply Hle|]. intros [Hin ->].
    apply StronglySorted_app in Hsorted as (Hlt & _ & _).
    specialize (Hlt b b Hin ltac:(by left)). lia. }
  csimpl. rewrite Hnew. f_equal.
  rewrite <-(IH (pre ++ [b])).
  - f_equal. apply length_filter_iff. intros v Hv.
    rewrite elem_of_app, list_elem_of_singleton. by apply Hle.
  - by rewrite <-app_assoc.
  - intros v Hv. rewrite <-app_assoc. by apply Hcover.
Qed.

Lemma cumsum_counts (V bins : list Z) :
  StronglySorted Z.lt bins →
  (∀ v, v ∈ V → v ∈ bins) →
  cumsum ((fun b => (b, occurrences b V)) <$> bins)
  = (fun b => (b, length (filter (fun v => (v ≤ b)%Z) V))) <$> bins.
Proof.
  intros Hsorted Hcover. unfold cumsum.
  rewrite <-(cumsum_from_counts V [] bins) by done.
  f_equal. induction V as [|v V IH]; [done|].
  rewrite filter_cons_False by apply not_elem_of_nil.
  apply IH. intros v' Hv'. apply Hcover. by right.
Qed.

Lemma StronglySorted_le_lt (l : list Z) :
  StronglySorted Z.le l → NoDup l → StronglySorted Z.lt l.
Proof.
  induction 1 as [|x l Hl IH Hx]; intros Hnodup; [constructor|].
  apply NoDup_cons in Hnodup as [Hnotin Hnodup].
  constructor; [by apply IH|].
  rewrite Forall_forall in Hx |- *. intros y Hy.
  specialize (Hx y Hy). assert (x ≠ y) by (by intros ->). lia.
Qed.

Lemma pairs_of_keys {B} (f : Z → B) (c : list (Z * B)) :
  Forall (fun p => p.2 = f p.1) c → c = (fun b => (b, f b)) <$> c.*1.
Proof.
  induction 1 as [|[b n] c Hp _ IH]; [done|]. csimpl.
  simpl in Hp. subst n. by f_equal.
Qed.

Lemma occurrences_Permutation (b : Z) (V V' : list Z) :
  V ≡ₚ V' → occurrences b V = occurrences b V'.
Proof. intros HV. unfold occurrences. by rewrite HV. Qed.

(** The counts, once sorted by bin: the bins are the distinct values in
    strictly ascending order, each with its count. *)
Lemma sort_index_value_counts (s : list (option Z)) :
  ∃ bins, StronglySorted Z.lt bins ∧
          (∀ b, b ∈ bins ↔ b ∈ omap id s) ∧
          sort_index (value_counts s)
          = (fun b => (b, occurrences b (omap id s))) <$> bins.
Proof.
  set (V := omap id s).
  set (c := sort_index (value_counts s)).
  assert (Hperm : c ≡ₚ (fun b => (b, occurrences b V)) <$> uniques V).
  { unfold c, sort_index, value_counts. by rewrite !merge_sort_Permutation. }
  assert (Hkeys : c.*1 ≡ₚ uniques V).
  { rewrite Hperm, <-list_fmap_compose. by rewrite list_fmap_id. }
  exists c.*1. split; [|split].
  - apply StronglySorted_le_lt.
    + apply Sorted_StronglySorted; [apply _|].
      apply (Sorted_fmap _ by_index); [done|].
      apply Sorted_merge_sort, _.
    + rewrite Hkeys. apply NoDup_uniques.
  - intros b. by rewrite Hkeys, elem_of_uniques.
  - apply pairs_of_keys. rewrite Hperm.
    apply Forall_fmap, Forall_forall. by intros b _.
Qed.

End L90Facts.

Lemma length_filter_all (P : Z → Prop) `{∀ x, Decision (P x)} (V : list Z) :
  (∀ v, v ∈ V → P v) → length (filter P V) = length V.
Proof.
  induction V as [|v V IH]; intros HV; [done|].
  rewrite filter_cons_True by (apply HV; by left). simpl. f_equal.
  apply IH. intros v' Hv'. apply HV. by right.
Qed.

(** [round0] gives a nearest integer. *)
Lemma round0_nearest (q : Q) :
  (Qabs (q - inject_Z (L90.round0 q)) <= 1 # 2)%Q.
Proof.
  apply Qabs_Qle_condition. unfold L90.round0.
  pose proof (Qfloor_le q) as Hlo. pose proof (Qlt_floor q) as Hhi.
  rewrite inject_Z_plus in Hhi. change (inject_Z 1) with 1%Q in Hhi.
  destruct (q - inject_Z (Qfloor q) ?= 1 # 2)%Q eqn:Hcmp.
  - apply Qeq_alt in Hcmp.
    destruct (Z.even (Qfloor q)); rewrite ?inject_Z_plus;
      change (inject_Z 1) with 1%Q; lra.
  - apply Qlt_alt in Hcmp. lra.
  - apply Qgt_alt in Hcmp. rewrite inject_Z_plus.
    change (inject_Z 1) with 1%Q. lra.
Qed.

(** C5, with the missing values set apart.  For a column with at least
    one value that is not [NaN]: the values are rounded to a nearest
    integer (a tie to the even one), the bins are the distinct rounded
    values in strictly ascending order, the curve has one point per bin,
    whose height is the share, in percent, of the rounded values that are
    at most the bin (the running sum of the counts over the total), and
    the last point is at 100.  This curve is the one the L90 distribution
    chart of a table draws for its [L90 A] column. *)
Theorem l90_cumulative_curve (l90 : list (option Q)) :
  (∃ q, Some q ∈ l90) →
  let V := rounded l90 in
  (∀ q, (Qabs (q - inject_Z (L90.round0 q)) <= 1 # 2)%Q) ∧
  ∃ bins bmax,
    StronglySorted Z.lt (bins ++ [bmax]) ∧
    (∀ b, b ∈ bins ++ [bmax] ↔ b ∈ V) ∧
    L90.l90_cumsum l90
    = Ok ((fun b => (b, cumulative_percent V b)) <$> bins ++ [bmax]) ∧
    (cumulative_percent V bmax == 100)%Q ∧
    (∀ (F : Type) (df_plot : DataFrame) (series : list value),
        getitem "L90 A" df_plot = Ok [series] →
        mapM L90.numeric series = Some l90 →
        l90_distribution (SpectraFigure:=F) df_plot
        = Ok (st.L90Distribution
                (L90.sort_values (L90.round l90))
                ((fun b => (b, cumulative_percent V b)) <$> bins ++ [bmax]))).
Proof.
  intros [q Hq] V. split; [apply round0_nearest|].
  set (s := L90.sort_values (L90.round l90)).
  assert (HV : omap id s ≡ₚ V).
  { unfold s, L90.sort_values, V, rounded. by rewrite merge_sort_Permutation. }
  destruct (sort_index_value_counts s) as (bins0 & Hsorted & Hbins & Hcounts).
  assert (HqV : L90.round0 q ∈ V).
  { unfold V, rounded. apply list_elem_of_omap. exists (Some (L90.round0 q)).
    split; [|done]. unfold L90.round. apply list_elem_of_fmap. by exists (Some q). }
  assert (Hbins' : ∀ b, b ∈ bins0 ↔ b ∈ V) by (intros b; by rewrite Hbins, HV).
  destruct bins0 as [|bmax bins _] using rev_ind.
  { apply Hbins' in HqV. by apply elem_of_nil in HqV. }
  assert (Hcum : L90.cumsum (L90.sort_index (L90.value_counts s))
                 = (fun b => (b, length (filter (fun v => (v ≤ b)%Z) V)))
                     <$> bins ++ [bmax]).
  { rewrite Hcounts, cumsum_counts; [|done|by intros v; rewrite Hbins].
    apply list_fmap_ext. intros _ b _. f_equal.
    apply Permutation_length. by rewrite HV. }
  assert (Htotal : length (filter (fun v => (v ≤ bmax)%Z) V) = length V).
  { apply length_filter_all. intros v Hv%Hbins'.
    apply elem_of_app in Hv as [Hv| ->%list_elem_of_singleton]; [|lia].
    apply Z.lt_le_incl.
    apply (StronglySorted_app_1_elem_of _ _ _ _ _ Hsorted Hv). by left. }
  assert (Hcurve : L90.l90_cumsum l90
                   = Ok ((fun b => (b, cumulative_percent V b)) <$> bins ++ [bmax])).
  { unfold L90.l90_cumsum. fold s. rewrite Hcum.
    unfold L90.iloc_last. rewrite fmap_last, last_snoc. simpl.
    unfold mbind, outcome_bind. f_equal.
    rewrite <-list_fmap_compose. apply list_fmap_ext. intros _ b _. simpl.
    unfold cumulative_percent. by rewrite Htotal. }
  exists bins, bmax. split; [done|]. split; [done|]. split; [done|]. split.
  - unfold cumulative_percent. rewrite Htotal.
    assert (Hpos : (0 < length V)%nat).
    { destruct V; [by apply elem_of_nil in HqV|simpl; lia]. }
    assert (Hnz : ¬ (L90.to_Q (length V) == 0)%Q).
    { unfold L90.to_Q. intros H0.
      assert (0 < inject_Z (Z.of_nat (length V)))%Q; [|lra].
      rewrite <-(Zlt_Qlt 0). lia. }
    field. exact Hnz.
  - intros F df_plot series Hcol Hnum. unfold l90_distribution.
    rewrite Hcol. unfold mbind at 1, outcome_bind.
    rewrite Hnum. unfold mbind at 1, outcome_bind.
    by rewrite Hcurve.
Qed.

(** C5 at work on six readings, one of them missing. *)
Lemma l90_cumulative_curve_witness :
  ∃ bins bmax,
    L90.l90_cumsum [Some (452 # 10); None; Some (25 # 10); Some (35 # 10);
                    Some (447 # 10); Some (2 # 1)]%Q
    = Ok ((fun b => (b, cumulative_percent
                          (rounded [Some (452 # 10); None; Some (25 # 10);
                                    Some (35 # 10); Some (447 # 10);
                                    Some (2 # 1)]%Q) b))
            <$> bins ++ [bmax]).
Proof.
  assert (H : ∃ q, Some q ∈ [Some (452 # 10); None; Some (25 # 10);
                              Some (35 # 10); Some (447 # 10); Some (2 # 1)]%Q)
    by (eexists; left).
  destruct (proj2 (l90_cumulative_curve _ H))
    as (bins & bmax & _ & _ & Hcurve & _).
  by exists bins, bmax.
Defined.

(** C5, as the specification words it, fails on a column that is not
    empty but holds no value: nothing is counted, there is no last point,
    and the chart raises. *)
Lemma all_nan_has_no_curve :
  ([None] : list (option Q)) ≠ [] ∧
  L90.l90_cumsum [None]
  = Raise (Exn IndexError "single positional indexer is out-of-bounds").
Proof. split; [discriminate|reflexivity]. Qed.

(** * Further properties of the script *)

(** ** A run from the top *)

Section Runs.
Variable PyNS : Engine.
Context {F : Type}.
Variable spectra_figure :
  string → DataFrame → list string → list label → outcome F.
Variable mktemp : gmap string string → string.

(** The sidebar with files: its five widgets and the session it leaves. *)
Lemma sidebar_spec (w : Widgets) (w0 : world F) agg last :
  session_state w0 = st.mkSession (Some agg) (Some last) →
  files w ≠ [] →
  let period := period_string (int_period w) (period_select w) in
  sidebar w w0
  = (Ok period,
     mkWorld (st.mkSession
                (Some (apply_agg_btn w || agg && bool_decide (last = period)))
                (Some period))
             (disk w0) (page w0 ++ sidebar_widgets)).
Proof.
  intros Hs Hfiles period. unfold sidebar.
  destruct (files w) as [|uf ufs]; [done|].
  unfold mbind at 1 2 3 4, run_bind; simpl.
  set (w2 := mkWorld _ _ _). fold period.
  unfold mbind at 1, run_bind.
  rewrite (period_check_spec period w2 (Some agg) last) by done.
  unfold mbind, run_bind; simpl. rewrite apply_action_spec. simpl.
  f_equal.
  destruct (apply_agg_btn w); simpl; repeat case_bool_decide;
    simplify_eq/=; rewrite ?Hs, ?andb_true_r, ?andb_false_r, <-?app_assoc; done.
Qed.

(** A run with files is the sidebar followed by the main window. *)
Lemma script_with_files (w : Widgets) (w0 : world F) :
  files w ≠ [] →
  script PyNS spectra_figure mktemp w w0
  = main_window PyNS spectra_figure mktemp w
      (period_string (int_period w) (period_select w))
      (mkWorld (session_after w (session_state w0)) (disk w0)
               (page w0 ++ sidebar_widgets)).
Proof.
  intros Hfiles. unfold script, mbind at 1 2, run_bind.
  rewrite init_session_spec.
  by rewrite (sidebar_spec w _ (view (session_state w0)).1
                (view (session_state w0)).2).
Qed.

(** X1.  Without files the run stops in the sidebar: the logo and the
    uploader are all that is drawn, the session only gets its defaults,
    the disk is not touched and the main window is never entered. *)
Theorem no_files_halts (w : Widgets) (w0 : world F) :
  files w = [] →
  script PyNS spectra_figure mktemp w w0
  = (Raise (Exn StopException ""),
     mkWorld (st.mkSession (Some (view (session_state w0)).1)
                           (Some (view (session_state w0)).2))
             (disk w0)
             (page w0 ++ [(st.Sidebar, st.logo "Logo.png");
                          (st.Sidebar, st.widget "Select one or more CSV files")])).
Proof.
  intros Hfiles. unfold script, mbind at 1 2, run_bind.
  rewrite init_session_spec.
  pose proof (sidebar_session w
                (mkWorld (st.mkSession (Some (view (session_state w0)).1)
                                       (Some (view (session_state w0)).2))
                         (disk w0) (page w0)) _ _ eq_refl) as Hside.
  rewrite Hfiles in Hside. by rewrite Hside.
Qed.

End Runs.

(** X1 at work. *)
Lemma no_files_halts_witness :
  script Toy.engine Toy.spectra_figure Toy.mktemp
    (mkWidgets [] 15 "minute(s)" true) Toy.world0
  = (Raise (Exn StopException ""),
     mkWorld (st.mkSession (Some false) (Some "")) ∅
       [(st.Sidebar, st.logo "Logo.png");
        (st.Sidebar, st.widget "Select one or more CSV files")]).
Proof.
  exact (no_files_halts Toy.engine Toy.spectra_figure Toy.mktemp
           (mkWidgets [] 15 "minute(s)" true) Toy.world0 eq_refl).
Defined.

(** ** The ingestion loop as a whole *)

Lemma dict_get_dict_set {V} (k k' : string) (v : V) (d : dict V) :
  dict_get k' (dict_set k v d)
  = if bool_decide (k = k') then Some v else dict_get k' d.
Proof.
  induction d as [|[k0 v0] d IH]; simpl.
  - done.
  - destruct (decide (k0 = k)) as [->|Hne].
    + rewrite bool_decide_true by done. simpl.
      destruct (decide (k = k')) as [->|Hne'].
      * by rewrite !bool_decide_true.
      * by rewrite !bool_decide_false.
    + rewrite (bool_decide_false (k0 = k)) by done. simpl. rewrite IH.
      destruct (decide (k0 = k')) as [->|Hne'].
      * rewrite bool_decide_true by done.
        by rewrite bool_decide_false.
      * by rewrite (bool_decide_false (k0 = k')).
Qed.

Lemma dict_get_keys {V} (k : string) (d : dict V) :
  k ∈ keys d ↔ is_Some (dict_get k d).
Proof.
  unfold keys. induction d as [|[k0 v0] d IH]; csimpl.
  - split; [by intros ?%elem_of_nil|by intros [? ?]].
  - rewrite elem_of_cons, IH. case_bool_decide; subst.
    + split; [by eexists|by left].
    + split; [by intros [?|?]|by right].
Qed.

Lemma NoDup_keys_dict_set {V} (k : string) (v : V) (d : dict V) :
  NoDup (keys d) → NoDup (keys (dict_set k v d)).
Proof.
  intros Hd. destruct (decide (k ∈ keys d)) as [Hin|Hnotin].
  - by rewrite keys_dict_set_old.
  - rewrite keys_dict_set_new by done. apply NoDup_app.
    split; [done|]. split; [|apply NoDup_singleton].
    by intros x Hx ->%list_elem_of_singleton.
Qed.

Section Ingestion.
Variable PyNS : Engine.
Context {F : Type}.
Variable mktemp : gmap string string → string.
Hypothesis mktemp_fresh : ∀ d, d !! mktemp d = None.

(** The loop, upload by upload, when the constructor raises nothing but
    [Exception]s. *)
Lemma load_logs_spec (files : list UploadedFile) (logs : dict (Log PyNS))
    (w : world F) :
  (∀ uf e, uf ∈ files →
           parse_upload PyNS mktemp (disk w) uf = Raise e →
           is_Exception e = true) →
  load_logs PyNS mktemp files logs w
  = (Ok (foldl (enter_log PyNS mktemp (disk w)) logs files),
     mkWorld (session_state w) (disk w)
             (page w ++ omap (load_error PyNS mktemp (disk w)) files)).
Proof.
  revert logs w. induction files as [|uf files IH]; intros logs w Hexn.
  - simpl. unfold mret, run_ret. destruct w. simpl. by rewrite app_nil_r.
  - assert (Hrest : ∀ uf' e, uf' ∈ files →
                             parse_upload PyNS mktemp (disk w) uf' = Raise e →
                             is_Exception e = true)
      by (intros uf' e Hin; apply Hexn; by right).
    assert (Hcons : omap (load_error (F:=F) PyNS mktemp (disk w)) (uf :: files)
                    = option_list (load_error PyNS mktemp (disk w) uf)
                      ++ omap (load_error PyNS mktemp (disk w)) files).
    { change (uf :: files) with ([uf] ++ files). by rewrite omap_app. }
    rewrite Hcons. cbn [load_logs foldl]. unfold mbind, run_bind.
    rewrite (load_log_spec PyNS mktemp mktemp_fresh).
    change (Log_init PyNS (mktemp (disk w)) (getbuffer uf))
      with (parse_upload PyNS mktemp (disk w) uf).
    unfold enter_log at 2, load_error at 1.
    destruct (parse_upload PyNS mktemp (disk w) uf) as [lg|e] eqn:Hp.
    + by rewrite IH.
    + rewrite (Hexn uf e) by (done || by left).
      rewrite IH by done. simpl. by rewrite <-app_assoc.
Qed.

(** The dictionary built from the uploads that parse. *)
Lemma enter_logs_spec (d : gmap string string)
    (files : list UploadedFile) :
  let logs := foldl (enter_log PyNS mktemp d) [] files in
  NoDup (keys logs) ∧
  (∀ k, k ∈ keys logs ↔
        ∃ uf lg, uf ∈ files ∧ name uf = k ∧ parse_upload PyNS mktemp d uf = Ok lg) ∧
  (∀ k, dict_get k logs = last_parsed PyNS mktemp d k files).
Proof.
  intros logs.
  assert (Hget : ∀ k, dict_get k logs = last_parsed PyNS mktemp d k files).
  { intros k. subst logs. unfold last_parsed.
    induction files as [|uf files IH] using rev_ind; [done|].
    rewrite foldl_app, omap_app, last_app. simpl.
    unfold enter_log at 1.
    destruct (parse_upload PyNS mktemp d uf) as [lg|e].
    - rewrite dict_get_dict_set.
      destruct (bool_decide (name uf = k)); simpl; [done|apply IH].
    - destruct (bool_decide (name uf = k)); simpl; apply IH. }
  split; [|split; [|done]].
  - clear Hget. subst logs.
    induction files as [|uf files IH] using rev_ind; [constructor|].
    rewrite foldl_app. cbn [foldl]. unfold enter_log at 1.
    destruct (parse_upload _ _ _ uf); [apply NoDup_keys_dict_set|]; exact IH.
  - intros k. rewrite dict_get_keys, Hget. unfold last_parsed.
    rewrite <-not_eq_None_Some, last_None.
    split.
    + intros Hne. destruct (omap _ files) as [|lg l] eqn:Hl; [done|].
      assert (Hin : lg ∈ omap (fun uf => if bool_decide (name uf = k)
                                         then match parse_upload PyNS mktemp d uf with
                                              | Ok lg => Some lg
                                              | Raise _ => None
                                              end
                                         else None) files)
        by (rewrite Hl; by left).
      apply list_elem_of_omap in Hin as (uf & Huf & Hk).
      case_bool_decide; [|done].
      destruct (parse_upload PyNS mktemp d uf) as [lg'|] eqn:Hp; [|done].
      by exists uf, lg'.
    + intros (uf & lg & Huf & Hk & Hp) Hnil.
      assert (Hin : lg ∈ omap (fun uf => if bool_decide (name uf = k)
                                         then match parse_upload PyNS mktemp d uf with
                                              | Ok lg => Some lg
                                              | Raise _ => None
                                              end
                                         else None) files).
      { apply list_elem_of_omap. exists uf. split; [done|].
        by rewrite bool_decide_true, Hp. }
      rewrite Hnil in Hin. by apply elem_of_nil in Hin.
Qed.

(** X2.  No upload stops the batch.  When the log constructor raises
    nothing but [Exception]s, the loop ends normally after the last
    upload: each upload that parses is entered in the dictionary under its
    name, each upload that does not parse puts one error on the page, in
    upload order, and neither the session nor the disk has changed. *)
Theorem batch_continues (files : list UploadedFile) (logs : dict (Log PyNS))
    (w : world F) :
  (∀ uf e, uf ∈ files →
           parse_upload PyNS mktemp (disk w) uf = Raise e →
           is_Exception e = true) →
  load_logs PyNS mktemp files logs w
  = (Ok (foldl (enter_log PyNS mktemp (disk w)) logs files),
     mkWorld (session_state w) (disk w)
             (page w ++ omap (load_error PyNS mktemp (disk w)) files)).
Proof. apply load_logs_spec. Qed.

(** X3.  The dictionary the loop builds from scratch.  Under the same
    condition its keys are pairwise distinct and are the names of the
    uploads that parse, and under a name it holds the log of the last
    upload of that name that parses: an earlier log of the same name is
    replaced. *)
Theorem logs_after_ingestion (files : list UploadedFile) (w : world F) :
  (∀ uf e, uf ∈ files →
           parse_upload PyNS mktemp (disk w) uf = Raise e →
           is_Exception e = true) →
  ∃ logs,
    (load_logs PyNS mktemp files [] w).1 = Ok logs ∧
    NoDup (keys logs) ∧
    (∀ k, k ∈ keys logs ↔
          ∃ uf lg, uf ∈ files ∧ name uf = k ∧
                   parse_upload PyNS mktemp (disk w) uf = Ok lg) ∧
    (∀ k, dict_get k logs = last_parsed PyNS mktemp (disk w) k files).
Proof.
  intros Hexn. eexists. split; [by rewrite load_logs_spec|].
  apply enter_logs_spec.
Qed.

End Ingestion.

(** X2 at work: a file that fails, then one that parses. *)
Lemma batch_continues_witness :
  load_logs Toy.engine Toy.mktemp [Toy.bad; Toy.good] [] Toy.world0
  = (Ok [("good.csv", Toy.master)],
     mkWorld (st.mkSession None None) ∅
       [(st.Main,
         st.error [st.Lit ("Failed to load `" +:+ "bad.csv"
                           +:+ "` into PyNS: " +:+ "empty file")])]).
Proof.
  refine (batch_continues Toy.engine Toy.mktemp toy_mktemp_fresh
            [Toy.bad; Toy.good] [] Toy.world0 _).
  intros uf e Hin. simpl in Hin. rewrite !elem_of_cons, elem_of_nil in Hin.
  destruct Hin as [->|[->|[]]]; unfold parse_upload; simpl.
  - by intros [= <-].
  - discriminate.
Defined.

Lemma toy_raises_exceptions (d : gmap string string) (uf : UploadedFile) (e : exn) :
  parse_upload Toy.engine Toy.mktemp d uf = Raise e → is_Exception e = true.
Proof.
  unfold parse_upload. simpl. case_bool_decide; [|done]. by intros [= <-].
Qed.

(** X3 at work: the later of two uploads of one name is the one kept. *)
Lemma logs_after_ingestion_witness :
  ∃ logs,
    (load_logs Toy.engine Toy.mktemp [Toy.good; Toy.again] []
       Toy.world0).1 = Ok logs ∧
    NoDup (keys logs) ∧
    (∀ k, k ∈ keys logs ↔
          ∃ uf lg, uf ∈ [Toy.good; Toy.again] ∧ name uf = k ∧
                   parse_upload Toy.engine Toy.mktemp (disk Toy.world0) uf
                   = Ok lg) ∧
    (∀ k, dict_get k logs
          = last_parsed Toy.engine Toy.mktemp (disk Toy.world0) k
              [Toy.good; Toy.again]).
Proof.
  exact (logs_after_ingestion Toy.engine Toy.mktemp toy_mktemp_fresh
           [Toy.good; Toy.again] Toy.world0
           (fun uf e _ => toy_raises_exceptions _ uf e)).
Defined.

(** ** One tab per upload *)

(** The log found under the name of an upload that parses, when no other
    upload has that name. *)
Lemma last_parsed_unique (PyNS : Engine) mktemp d (files : list UploadedFile)
    (uf : UploadedFile) (lg : Log PyNS) :
  NoDup (name <$> files) → uf ∈ files →
  parse_upload PyNS mktemp d uf = Ok lg →
  last_parsed PyNS mktemp d (name uf) files = Some lg.
Proof.
  intros Hnodup Hin Hp. unfold last_parsed.
  induction files as [|uf' files IH]; [by apply elem_of_nil in Hin|].
  rewrite fmap_cons in Hnodup. apply NoDup_cons in Hnodup as [Hnotin Hnodup].
  cbn [omap list_omap].
  apply elem_of_cons in Hin as [<-|Hin].
  - rewrite bool_decide_true, Hp by done.
    assert (Hrest : omap (fun uf' => if bool_decide (name uf' = name uf)
                                     then match parse_upload PyNS mktemp d uf' with
                                          | Ok lg => Some lg
                                          | Raise _ => None
                                          end
                                     else None) files = []).
    { clear IH Hnodup. induction files as [|x files IH]; [done|].
      rewrite fmap_cons, not_elem_of_cons in Hnotin. destruct Hnotin as [Hne Hnotin].
      cbn [omap list_omap]. rewrite bool_decide_false by done. by apply IH. }
    by rewrite Hrest.
  - rewrite bool_decide_false; [by apply IH|].
    intros Heq. apply Hnotin. rewrite Heq. apply list_elem_of_fmap. by exists uf.
Qed.

Section TabsOfUploads.
Variable PyNS : Engine.
Context {F : Type}.
Variable spectra_figure :
  string → DataFrame → list string → list label → outcome F.
Variable mktemp : gmap string string → string.
Hypothesis mktemp_fresh : ∀ d, d !! mktemp d = None.

(** C9.  In the setting of the specification (one or more uploads, each
    with a name of its own), when every upload parses and the survey lets
    no exception escape, a run draws one tab set: Summary followed by the
    upload names in upload order, so the position tabs are as many as the
    uploads.  The run itself is then the tab set, the summary tab and the
    position loop over the uploads in their order, which takes tab number
    i+1 with upload number i and finds that upload's own log under its
    name. *)
Theorem one_tab_per_file (w : Widgets) (w0 : world F) :
  files w ≠ [] →
  (∀ uf path, uf ∈ files w → ∃ lg, Log_init PyNS path (getbuffer uf) = Ok lg) →
  (∀ logs e, survey_tables PyNS logs ≠ Raise e) →
  NoDup (name <$> files w) →
  let pos_list := name <$> files w in
  let period := period_string (int_period w) (period_select w) in
  drawn_tabs (page (script PyNS spectra_figure mktemp w w0).2)
  = drawn_tabs (page w0) ++ ["Summary" :: pos_list] ∧
  length (position_containers pos_list) = length (files w) ∧
  zip (position_containers pos_list) (files w)
  = imap (fun i uf => (st.Tab (S i), uf)) (files w) ∧
  ∃ logs s,
    keys logs = pos_list ∧
    (∀ uf, uf ∈ files w →
           ∃ lg, Log_init PyNS (mktemp (disk w0)) (getbuffer uf) = Ok lg ∧
                 dict_get (name uf) logs = Some lg) ∧
    survey_tables PyNS logs = Ok s ∧
    script PyNS spectra_figure mktemp w w0
    = (draw st.Main (st.tabs ("Summary" :: pos_list));;
       summary_tab spectra_figure s pos_list;;
       for_each (imap (fun i uf => (st.Tab (S i), uf)) (files w))
                (position_tab PyNS logs period))
        (mkWorld (session_after w (session_state w0)) (disk w0)
                 (page w0 ++ sidebar_widgets)).
Proof.
  intros Hfiles Hparse Hsurvey Hnodup pos_list period.
  set (w1 := mkWorld (session_after w (session_state w0)) (disk w0)
                     (page w0 ++ sidebar_widgets)).
  destruct (load_logs_all_parse PyNS mktemp mktemp_fresh (files w) [] w1)
    as (logs & Hload & Hkeys); [done|done|]. simpl in Hkeys. fold pos_list in Hkeys.
  assert (Hexn : ∀ uf e, uf ∈ files w →
                         parse_upload PyNS mktemp (disk w1) uf = Raise e →
                         is_Exception e = true).
  { intros uf e Hin Hp. destruct (Hparse uf (mktemp (disk w1)) Hin) as [lg Hlg].
    unfold parse_upload in Hp. congruence. }
  pose proof (load_logs_spec PyNS mktemp mktemp_fresh (files w) [] w1 Hexn) as Hspec.
  rewrite Hload in Hspec. injection Hspec as Hlogs _.
  change (disk w1) with (disk w0) in Hlogs.
  destruct (enter_logs_spec PyNS mktemp (disk w0) (files w)) as (_ & _ & Hget).
  rewrite <-Hlogs in Hget.
  destruct (survey_tables PyNS logs) as [s|e] eqn:Hs; [|by destruct (Hsurvey logs e)].
  assert (Hmain : script PyNS spectra_figure mktemp w w0
                  = (draw st.Main (st.tabs ("Summary" :: pos_list));;
                     summary_tab spectra_figure s pos_list;;
                     position_tabs PyNS logs period (files w)) w1).
  { rewrite script_with_files by done. fold w1 period.
    unfold main_window, mbind at 1, run_bind. rewrite Hload.
    unfold mbind at 1, run_bind, call. by rewrite Hs, Hkeys. }
  split; [|split; [|split]].
  - rewrite Hmain.
    destruct (draws_only_bind not_tabs
                (summary_tab spectra_figure s pos_list)
                (fun _ => position_tabs PyNS logs period (files w))
                (draws_only_summary_tab _ _ _)
                (fun _ => draws_only_position_tabs _ _ _ _)
                (draw st.Main (st.tabs ("Summary" :: pos_list)) w1).2)
      as (more & Hp & Hall).
    unfold mbind at 1, run_bind. cbn [draw].
    transitivity (drawn_tabs ((page w1 ++ [(st.Main, st.tabs ("Summary" :: pos_list))])
                              ++ more));
      [exact (f_equal drawn_tabs Hp)|].
    subst w1. cbn [page]. rewrite !drawn_tabs_app.
    rewrite (drawn_tabs_not_tabs more) by done.
    rewrite (drawn_tabs_not_tabs sidebar_widgets) by (repeat constructor).
    by rewrite !app_nil_r.
  - unfold position_containers, pos_list.
    by rewrite length_fmap, length_seq, length_fmap.
  - unfold position_containers, pos_list. rewrite length_fmap.
    apply (zip_tabs 1).
  - exists logs, s. split; [done|]. split; [|split; [done|]].
    + intros uf Hin. destruct (Hparse uf (mktemp (disk w0)) Hin) as [lg Hlg].
      exists lg. split; [done|]. rewrite Hget.
      by apply last_parsed_unique.
    + rewrite Hmain. unfold position_tabs, position_containers.
      rewrite Hkeys.
      replace (length pos_list) with (length (files w))
        by (unfold pos_list; by rewrite length_fmap).
      by rewrite (zip_tabs 1).
Qed.

End TabsOfUploads.

(** C9 at work: two uploads, two position tabs in upload order. *)
Lemma one_tab_per_file_witness :
  drawn_tabs (page (script Toy.engine Toy.spectra_figure Toy.mktemp
                      (mkWidgets [Toy.good; mkUpload "second.csv" "Time,Leq A"]
                                 15 "minute(s)" false) Toy.world0).2)
  = [["Summary"; "good.csv"; "second.csv"]].
Proof.
  refine (proj1 (one_tab_per_file Toy.engine Toy.spectra_figure Toy.mktemp
                   toy_mktemp_fresh
                   (mkWidgets [Toy.good; mkUpload "second.csv" "Time,Leq A"]
                              15 "minute(s)" false) Toy.world0
                   _ _ toy_survey_tables _)).
  - discriminate.
  - intros uf path Hin. apply toy_parses. simpl in Hin.
    rewrite !elem_of_cons, elem_of_nil in Hin. by destruct Hin as [->|[->|[]]].
  - simpl. apply NoDup_cons. split; [|apply NoDup_singleton].
    by intros ?%list_elem_of_singleton.
Defined.

(** ** A batch in which nothing parses *)

Section AllFail.
Variable PyNS : Engine.
Context {F : Type}.
Variable spectra_figure :
  string → DataFrame → list string → list label → outcome F.
Variable mktemp : gmap string string → string.
Hypothesis mktemp_fresh : ∀ d, d !! mktemp d = None.

Lemma foldl_enter_log_none (d : gmap string string) (files : list UploadedFile)
    (logs : dict (Log PyNS)) :
  (∀ uf, uf ∈ files → ∃ e, parse_upload PyNS mktemp d uf = Raise e) →
  foldl (enter_log PyNS mktemp d) logs files = logs.
Proof.
  revert logs. induction files as [|uf files IH]; intros logs Hfail; [done|].
  cbn [foldl]. unfold enter_log at 2.
  destruct (Hfail uf) as [e ->]; [by left|].
  apply IH. intros uf' Hin. apply Hfail. by right.
Qed.

(** X4.  When no upload parses, the run still goes through: after the
    sidebar, one error per upload, in upload order, then a tab set with
    the Summary tab alone, in which the heading is followed by the
    warning that no valid log was loaded.  No position tab is drawn and
    no upload gets a chart or a table. *)
Theorem no_log_no_position_tab (w : Widgets) (w0 : world F) :
  files w ≠ [] →
  (∀ uf, uf ∈ files w →
         ∃ e, parse_upload PyNS mktemp (disk w0) uf = Raise e ∧
              is_Exception e = true) →
  script PyNS spectra_figure mktemp w w0
  = (Ok (),
     mkWorld (session_after w (session_state w0)) (disk w0)
       (page w0 ++ sidebar_widgets
        ++ omap (load_error PyNS mktemp (disk w0)) (files w)
        ++ [(st.Main, st.tabs ["Summary"]);
            (st.Tab 0, st.subheader "BS8233 Residential Summary");
            (st.Tab 0,
             st.warning [st.Lit "Summary unavailable: No valid logs loaded."])])).
Proof.
  intros Hfiles Hfail. rewrite script_with_files by done.
  unfold main_window, mbind at 1, run_bind.
  rewrite (load_logs_spec PyNS mktemp mktemp_fresh); last first.
  { intros uf e Hin Hp. cbn [disk] in Hp.
    destruct (Hfail uf Hin) as (e' & He' & Hexn). rewrite He' in Hp.
    by injection Hp as <-. }
  cbn [disk page session_state].
  rewrite foldl_enter_log_none; last first.
  { intros uf Hin. destruct (Hfail uf Hin) as (e & He & _). by exists e. }
  unfold mbind, run_bind; simpl. f_equal. f_equal. by rewrite <-!app_assoc.
Qed.

End AllFail.

(** X4 at work: one empty file. *)
Lemma no_log_no_position_tab_witness :
  script Toy.engine Toy.spectra_figure Toy.mktemp
    (mkWidgets [Toy.bad] 15 "minute(s)" false) Toy.world0
  = (Ok (),
     mkWorld (st.mkSession (Some false) (Some "15min")) ∅
       (sidebar_widgets
        ++ [(st.Main,
             st.error [st.Lit "Failed to load `bad.csv` into PyNS: empty file"]);
            (st.Main, st.tabs ["Summary"]);
            (st.Tab 0, st.subheader "BS8233 Residential Summary");
            (st.Tab 0,
             st.warning [st.Lit "Summary unavailable: No valid logs loaded."])])).
Proof.
  refine (no_log_no_position_tab Toy.engine Toy.spectra_figure Toy.mktemp
            toy_mktemp_fresh (mkWidgets [Toy.bad] 15 "minute(s)" false)
            Toy.world0 _ _).
  - discriminate.
  - intros uf Hin%list_elem_of_singleton. subst uf.
    by exists (Exn ValueError "empty file").
Defined.

(** ** The survey and the tables of a position *)

Lemma getitem_missing (l : string) (df : DataFrame) :
  LStr l ∉ flat_labels (columns df) →
  getitem l df = Raise (Exn KeyError (repr (LStr l))).
Proof.
  intros Hmiss. unfold getitem. rewrite bool_decide_true; [done|].
  induction (flat_labels (columns df)) as [|l' ls IH]; [done|].
  apply not_elem_of_cons in Hmiss as [Hne Hmiss].
  rewrite filter_cons_False by done. by apply IH.
Qed.

Lemma getitem_present (l : string) (df : DataFrame) :
  LStr l ∈ flat_labels (columns df) → ∃ cols, getitem l df = Ok cols.
Proof.
  intros Hin. unfold getitem. rewrite bool_decide_false; [by eexists|].
  intros Hlen. apply length_zero_iff_nil in Hlen.
  assert (Hl : LStr l ∈ filter (fun l' => l' = LStr l) (flat_labels (columns df)))
    by (by apply list_elem_of_filter).
  rewrite Hlen in Hl. by apply elem_of_nil in Hl.
Qed.

Section Survey.
Variable PyNS : Engine.
Context {F : Type}.
Variable spectra_figure :
  string → DataFrame → list string → list label → outcome F.

(** X6.  The survey never lets an [Exception] out, and the first one
    becomes the message.  The step calls, in this order, [PyNS.Survey()],
    the attachment of the logs, [resi_summary()] and the two spectra
    accessors.  The first of these calls to raise an [Exception] ends the
    step: [summary_error] is the text of that exception, the tables
    assigned before it are kept and the later ones stay absent; when no
    call raises, the three tables are there and the message is empty.
    What is not an [Exception] is raised on.  So the step never raises an
    [Exception]; without logs it gives no table and the message that no
    valid log was loaded; and a message leaves the Lmax table absent. *)
Theorem survey_exception_becomes_message (logs : dict (Log PyNS)) :
  let caught a b c e :=
    if is_Exception e then Ok (mkSummary a b c (exn_msg e)) else Raise e in
  (logs ≠ [] →
   survey_tables PyNS logs
   = match (survey ← Survey_init PyNS;
            survey ← attach_logs PyNS survey logs;
            t ← resi_summary PyNS survey;
            Ok (survey, t)) with
     | Raise e => caught None None None e
     | Ok (survey, t) =>
         match optional_table (typical_leq_spectra PyNS survey) with
         | Raise e => caught t None None e
         | Ok leq =>
             match optional_table (lmax_spectra PyNS survey) with
             | Raise e => caught t leq None e
             | Ok lmax => Ok (mkSummary t leq lmax "")
             end
         end
     end) ∧
  match survey_tables PyNS logs with
  | Raise e => is_Exception e = false
  | Ok s =>
      (logs = [] → s = mkSummary None None None "No valid logs loaded.") ∧
      (is_Some (lmax_spec_df s) → summary_error s = "")
  end.
Proof.
  intros caught. split.
  - intros Hlogs. destruct logs as [|l logs]; [done|].
    unfold survey_tables, step, caught, mbind, outcome_bind.
    cbn [summary_df leq_spec_df lmax_spec_df].
    destruct (Survey_init PyNS) as [survey|e]; [|done].
    destruct (attach_logs PyNS survey (l :: logs)) as [survey'|e]; [|done].
    destruct (resi_summary PyNS survey') as [t|e]; [|done].
    destruct (optional_table (typical_leq_spectra PyNS survey')) as [leq|e];
      [|done].
    by destruct (optional_table (lmax_spectra PyNS survey')) as [lmax|e].
  - destruct logs as [|[name lg] logs]; [by split; [|intros [? [=]]]|].
    unfold survey_tables.
    repeat (unfold step at 1;
            match goal with
            | |- context [match ?o with Ok _ => _ | Raise _ => _ end] =>
                destruct o as [?|e]; [|by destruct (is_Exception e) eqn:?;
                                           [split; [|intros [? [=]]]|]]
            end).
    by split.
Qed.

(** X7.  A failure of the Leq spectra accessor is silent.  With the
    summary table there, an [Exception] of [typical_leq_spectra] ends the
    step: its message is stored but never shown, the Lmax accessor is not
    called, and the summary tab shows the heading and the summary table
    only, with no chart and no warning. *)
Theorem spectra_failure_is_silent (logs : dict (Log PyNS)) survey survey' df e
    (pos_list : list string) (w : world F) :
  logs ≠ [] →
  Survey_init PyNS = Ok survey →
  attach_logs PyNS survey logs = Ok survey' →
  resi_summary PyNS survey' = Ok (Some df) →
  optional_table (typical_leq_spectra PyNS survey') = Raise e →
  is_Exception e = true →
  survey_tables PyNS logs = Ok (mkSummary (Some df) None None (exn_msg e)) ∧
  summary_tab spectra_figure (mkSummary (Some df) None None (exn_msg e))
    pos_list w
  = (Ok (),
     mkWorld (session_state w) (disk w)
       (page w ++ [(st.Tab 0, st.subheader "BS8233 Residential Summary");
                   (st.Tab 0, st.dataframe df false)])).
Proof.
  intros Hlogs Hinit Hattach Hsummary Hleq Hexn. split.
  - destruct logs as [|l logs]; [done|].
    unfold survey_tables, step at 1. rewrite Hinit.
    unfold step at 1. rewrite Hattach.
    unfold step at 1. rewrite Hsummary.
    unfold step at 1. cbn [summary_df leq_spec_df lmax_spec_df].
    by rewrite Hleq, Hexn.
  - unfold summary_tab, mbind, run_bind; simpl. by rewrite <-app_assoc.
Qed.

(** X8.  A table that cannot be prepared is reported, in either view.
    The table of a position is the aggregated one when aggregation is
    applied and the raw master table otherwise, with its index reset.
    An [Exception] raised on the way (by the engine or by [reset_index])
    puts one error in the tab, worded after the view, and nothing else:
    the loop goes on to the next tab. *)
Theorem preparation_failure_reported (logs : dict (Log PyNS)) period tab uf log
    (agg : bool) e (w : world F) :
  dict_get (name uf) logs = Some log →
  st.apply_agg (session_state w) = Some agg →
  (if agg then as_interval PyNS log period else _master PyNS log)
    ≫= reset_index = Raise e →
  is_Exception e = true →
  position_tab PyNS logs period (tab, uf) w =
    (Ok (),
     mkWorld (session_state w) (disk w)
       (page w ++ [(tab, st.error
                           [st.Lit ((if agg
                                     then "Failed to apply integration period for `"
                                     else "Failed to load raw data for `")
                                    +:+ name uf +:+ "`: " +:+ exn_msg e)])])).
Proof.
  intros Hlog Hagg Hfail Hexn.
  unfold position_tab. rewrite Hlog.
  unfold df_used_of, session_get, mbind, run_bind, get_session; simpl.
  rewrite Hagg; simpl.
  destruct agg; unfold try_except, mbind, run_bind, call; simpl.
  - destruct (as_interval PyNS log period) as [t|e']; simpl in Hfail.
    + by rewrite Hfail, Hexn.
    + injection Hfail as ->. by rewrite Hexn.
  - destruct (_master PyNS log) as [t|e']; simpl in Hfail.
    + by rewrite Hfail, Hexn.
    + injection Hfail as ->. by rewrite Hexn.
Qed.

(** X9.  The time axis is not among the required columns.  A table that
    has the three required columns but no [Timestamp] column passes the
    check, and the time-history chart then raises [KeyError]: nothing is
    drawn for the position, not even the table, and the exception leaves
    the loop. *)
Theorem missing_timestamp_raises tab df_used subheader (w : world F) :
  has_required (df_plot_of df_used) = true →
  LStr "Timestamp" ∉ flat_labels (columns (df_plot_of df_used)) →
  position_view (SpectraFigure:=F) tab df_used subheader w
  = (Raise (Exn KeyError "'Timestamp'"), w).
Proof.
  intros Hreq Hmiss. unfold position_view, mbind at 1 2, run_bind.
  rewrite Hreq. unfold mbind at 1, run_bind, call, time_history.
  by rewrite (getitem_missing "Timestamp").
Qed.

End Survey.

Section TimeAxis.
Context {F : Type}.

Lemma Scatter_raises (name mode : string) (x y : list (list value)) (e : exn) :
  Scatter name mode x y = Raise e → exn_cls e = ValueError.
Proof.
  unfold Scatter. destruct x as [|? [|? ?]], y as [|? [|? ?]]; by intros [= <-].
Qed.

(** With its four columns there, the time-history figure can only fail
    on a column that occurs more than once. *)
Lemma time_history_raises (df_plot : DataFrame) (e : exn) :
  LStr "Timestamp" ∈ flat_labels (columns df_plot) →
  has_required df_plot = true →
  time_history (SpectraFigure:=F) df_plot = Raise e → exn_cls e = ValueError.
Proof.
  intros Hts Hreq.
  unfold has_required, required_cols in Hreq. simpl in Hreq.
  rewrite !andb_true_iff, !bool_decide_eq_true in Hreq.
  destruct Hreq as (Hleq & Hl90 & Hlmax & _).
  destruct (getitem_present "Timestamp" df_plot Hts) as [x Hx].
  destruct (getitem_present "Leq A" df_plot Hleq) as [leq Hgleq].
  destruct (getitem_present "L90 A" df_plot Hl90) as [l90 Hgl90].
  destruct (getitem_present "Lmax A" df_plot Hlmax) as [lmax Hglmax].
  unfold time_history. rewrite Hx, Hgleq, Hgl90, Hglmax.
  unfold mbind, outcome_bind.
  destruct (Scatter "Leq A" _ _ _) eqn:H1; [|by intros [= <-]; eapply Scatter_raises].
  destruct (Scatter "L90 A" _ _ _) eqn:H2; [|by intros [= <-]; eapply Scatter_raises].
  destruct (Scatter "Lmax A" _ _ _) eqn:H3; [|by intros [= <-]; eapply Scatter_raises].
  done.
Qed.

Lemma mapM_text_raises (series : list value) (e : exn) :
  mapM L90.text series = Raise e → exn_cls e = TypeError.
Proof.
  induction series as [|v series IH]; [done|]. cbn [mapM].
  unfold mbind at 1, outcome_bind.
  destruct v; simpl; try by intros [= <-].
  - destruct (mapM L90.text series); [done|]. intros [= <-]. by apply IH.
  - destruct (mapM L90.text series); [done|]. intros [= <-]. by apply IH.
Qed.

(** With its column there, the L90 figure fails with [TypeError] or
    [IndexError] only. *)
Lemma l90_distribution_raises (df_plot : DataFrame) (e : exn) :
  LStr "L90 A" ∈ flat_labels (columns df_plot) →
  l90_distribution (SpectraFigure:=F) df_plot = Raise e →
  exn_cls e = TypeError ∨ exn_cls e = IndexError.
Proof.
  intros Hl90. destruct (getitem_present "L90 A" df_plot Hl90) as [l90 Hg].
  unfold l90_distribution. rewrite Hg. unfold mbind at 1, outcome_bind.
  destruct l90 as [|series [|? ?]]; try (intros [= <-]; by left).
  destruct (mapM L90.numeric series) as [nums|].
  - unfold L90.l90_cumsum, L90.iloc_last, mbind, outcome_bind.
    destruct (last _) as [[b n]|]; [done|]. intros [= <-]. by right.
  - unfold mbind at 1, outcome_bind.
    destruct (mapM L90.text series) as [strs|e'] eqn:Ht.
    + unfold L90.object_cumsum, mbind, outcome_bind.
      destruct (last _) as [[b n]|]; [done|]. intros [= <-]. by right.
    + intros [= <-]. left. by eapply mapM_text_raises.
Qed.

(** X10.  Where the time axis comes from.  The index of the prepared
    table is reset and the column it becomes is renamed to [Timestamp]:
    the column named after the index (or [index]) in the aggregated view,
    the column [Time] in the raw view.  When the index has one level and
    the column it becomes has that name, the table of the charts, with
    its header flattened, starts with the column [Timestamp], also under
    a two-level header.  The view of the position then never fails for
    want of a column: whatever it raises, it is no [KeyError]. *)
Theorem time_axis_present (agg : bool) (df r : DataFrame) tab subheader
    (w : world F) :
  let key := if agg then py_or (index_name (index df)) (LStr "index")
             else LStr "Time" in
  let df_used := rename_columns key (LStr "Timestamp") r in
  default_index_names df = [key] →
  reset_index df = Ok r →
  head (flat_labels (columns (df_plot_of df_used))) = Some (LStr "Timestamp") ∧
  ∀ e, (position_view tab df_used subheader w).1 = Raise e →
       exn_cls e ≠ KeyError.
Proof.
  intros key df_used Hnames Hreset.
  assert (Hkey : key ≠ LStr "").
  { subst key. destruct agg; [|done]. unfold py_or.
    destruct (truthy (index_name (index df))) eqn:Ht; [|done].
    intros Hn. rewrite Hn in Ht. done. }
  assert (Hhead : head (flat_labels (columns (df_plot_of df_used)))
                  = Some (LStr "Timestamp")).
  { revert Hreset. unfold reset_index. rewrite Hnames. cbn [imap foldr].
    unfold mbind, outcome_bind, insert0.
    subst df_used. unfold df_plot_of, rename_columns, flatten.
    destruct (columns df) as [ls|ps]; case_bool_decide; try done;
      intros [= <-]; cbn [columns flat_labels fmap list_fmap head prod_map fst snd];
      unfold rename_label at 1; rewrite bool_decide_true by done.
    - done.
    - assert (Hr : rename_label key (LStr "Timestamp") (LStr "") = LStr "").
      { unfold rename_label. rewrite bool_decide_false; [done|].
        by intros ?; apply Hkey. }
      rewrite Hr. by vm_compute. }
  split; [done|]. intros e.
  assert (Hts : LStr "Timestamp" ∈ flat_labels (columns (df_plot_of df_used))).
  { destruct (flat_labels (columns (df_plot_of df_used))); [done|].
    injection Hhead as ->. by left. }
  unfold position_view, mbind at 1 2 3, run_bind.
  destruct (has_required (df_plot_of df_used)) eqn:Hreq; [|done].
  assert (Hl90 : LStr "L90 A" ∈ flat_labels (columns (df_plot_of df_used))).
  { unfold has_required, required_cols in Hreq. simpl in Hreq.
    rewrite !andb_true_iff, !bool_decide_eq_true in Hreq. tauto. }
  unfold mbind, run_bind, call.
  destruct (time_history (df_plot_of df_used)) as [th|e1] eqn:Hth.
  - cbn [draw]. destruct (l90_distribution (df_plot_of df_used)) as [ld|e2] eqn:Hld.
    + done.
    + cbn. intros [= <-].
      destruct (l90_distribution_raises _ _ Hl90 Hld) as [-> | ->]; done.
  - cbn. intros [= <-]. by rewrite (time_history_raises _ _ Hts Hreq Hth).
Qed.

End TimeAxis.

(** X7 at work: the summary is shown, the failure of the accessor is
    not. *)
Lemma spectra_failure_is_silent_witness :
  survey_tables Toy.engine_failing_spectra [("good.csv", Toy.master)]
  = Ok (mkSummary (Some Toy.no_lmax) None None "no spectra in the logs").
Proof.
  exact (proj1 (spectra_failure_is_silent Toy.engine_failing_spectra
                  Toy.spectra_figure [("good.csv", Toy.master)] []
                  [("good.csv", Toy.master)] Toy.no_lmax
                  (Exn ValueError "no spectra in the logs") ["good.csv"]
                  Toy.world0 ltac:(discriminate) eq_refl eq_refl eq_refl
                  eq_refl eq_refl)).
Defined.

(** X8 at work: a raw table whose index is named like a column. *)
Lemma preparation_failure_reported_witness :
  position_tab (SpectraFigure:=string) Toy.engine [("twice.csv", Toy.time_twice)]
    "15min" (st.Tab 1, mkUpload "twice.csv" "Time,Time,Leq A")
    (mkWorld (st.mkSession (Some false) (Some "15min")) ∅ [])
  = (Ok (),
     mkWorld (st.mkSession (Some false) (Some "15min")) ∅
       [(st.Tab 1,
         st.error [st.Lit ("Failed to load raw data for `" +:+ "twice.csv"
                           +:+ "`: " +:+ "cannot insert Time, already exists")])]).
Proof.
  apply (preparation_failure_reported Toy.engine [("twice.csv", Toy.time_twice)]
           "15min" (st.Tab 1) (mkUpload "twice.csv" "Time,Time,Leq A")
           Toy.time_twice false
           (Exn ValueError "cannot insert Time, already exists")
           (mkWorld (st.mkSession (Some false) (Some "15min")) ∅ []));
    reflexivity.
Defined.

(** X9 at work: the three levels without a time column. *)
Lemma missing_timestamp_raises_witness :
  position_view (SpectraFigure:=string) (st.Tab 1) Toy.no_time
    "Raw Survey Data" Toy.world0
  = (Raise (Exn KeyError "'Timestamp'"), Toy.world0).
Proof.
  apply (missing_timestamp_raises (F:=string) (st.Tab 1) Toy.no_time
           "Raw Survey Data" Toy.world0).
  - reflexivity.
  - cbn. rewrite !elem_of_cons, elem_of_nil.
    intros [?|[?|[?|[?|[]]]]]; discriminate.
Defined.

(** X10 at work: the raw table of the toy log. *)
Lemma time_axis_present_witness :
  ∃ r, reset_index Toy.master = Ok r ∧
       head (flat_labels (columns (df_plot_of
               (rename_columns (LStr "Time") (LStr "Timestamp") r))))
       = Some (LStr "Timestamp").
Proof.
  eexists. split; [vm_compute; reflexivity|].
  refine (proj1 (time_axis_present (F:=string) false Toy.master _ (st.Tab 1)
                   "Raw Survey Data" Toy.world0 _ _));
    vm_compute; reflexivity.
Defined.

(** ** The rise of the cumulative curve *)

Lemma StronglySorted_fmap_mono {A B} (R1 : relation A) (R2 : relation B)
    (f : A → B) (l : list A) :
  StronglySorted R1 l →
  (∀ x y, x ∈ l → y ∈ l → R1 x y → R2 (f x) (f y)) →
  StronglySorted R2 (f <$> l).
Proof.
  induction 1 as [|x l Hl IH Hx]; intros Hf; csimpl; constructor.
  - apply IH. intros a b Ha Hb. apply Hf; by right.
  - rewrite Forall_fmap. rewrite Forall_forall in Hx |- *.
    intros y Hy. simpl. apply Hf; [by left|by right|by apply Hx].
Qed.

Lemma length_filter_pos (P : Z → Prop) `{∀ x, Decision (P x)} (V : list Z) x :
  x ∈ V → P x → (0 < length (filter P V))%nat.
Proof.
  intros Hx HP. assert (Hin : x ∈ filter P V) by (by apply list_elem_of_filter).
  destruct (filter P V); [by apply elem_of_nil in Hin|simpl; lia].
Qed.

(** The counts below two bins, one under the other. *)
Lemma count_le_lt (V : list Z) (b b' : Z) :
  (b < b')%Z → b' ∈ V →
  (length (filter (fun v => (v ≤ b)%Z) V)
   < length (filter (fun v => (v ≤ b')%Z) V))%nat.
Proof.
  intros Hlt Hin.
  pose proof (length_filter_split (fun v => (v ≤ b)%Z)
                (fun v => (b < v ≤ b')%Z) (fun v => (v ≤ b')%Z) V) as Hsplit.
  rewrite <-Hsplit by (intros v _; lia).
  assert (0 < length (filter (fun v => (b < v ≤ b')%Z) V))%nat; [|lia].
  apply (length_filter_pos _ V b'); [done|lia].
Qed.

Lemma to_Q_lt (n m : nat) : (n < m)%nat → (L90.to_Q n < L90.to_Q m)%Q.
Proof. intros H. unfold L90.to_Q. rewrite <-Zlt_Qlt. lia. Qed.

Lemma to_Q_le (n m : nat) : (n ≤ m)%nat → (L90.to_Q n <= L90.to_Q m)%Q.
Proof. intros H. unfold L90.to_Q. rewrite <-Zle_Qle. lia. Qed.

Lemma percent_lt (n m N : nat) :
  (0 < N)%nat → (n < m)%nat →
  (L90.to_Q n / L90.to_Q N * 100 < L90.to_Q m / L90.to_Q N * 100)%Q.
Proof.
  intros HN Hnm. apply to_Q_lt in Hnm. apply (to_Q_lt 0) in HN.
  change (L90.to_Q 0) with 0%Q in HN.
  apply Qmult_lt_compat_r; [done|].
  unfold Qdiv. apply Qmult_lt_compat_r; [|done].
  by apply Qinv_lt_0_compat.
Qed.

Lemma percent_range (n N : nat) :
  (0 < n)%nat → (n ≤ N)%nat →
  (0 < L90.to_Q n / L90.to_Q N * 100 ∧ L90.to_Q n / L90.to_Q N * 100 <= 100)%Q.
Proof.
  intros Hn HnN.
  assert (HN : (0 < L90.to_Q N)%Q) by (apply (to_Q_lt 0); lia).
  apply (to_Q_lt 0) in Hn. change (L90.to_Q 0) with 0%Q in Hn.
  apply to_Q_le in HnN.
  assert (Hinv : (0 < / L90.to_Q N)%Q) by (by apply Qinv_lt_0_compat).
  split.
  - apply (Qmult_lt_compat_r 0 _ 100); [done|].
    unfold Qdiv. rewrite <-(Qmult_0_l (/ L90.to_Q N)).
    by apply Qmult_lt_compat_r.
  - apply (Qle_trans _ (1 * 100)); [|apply Qle_refl].
    apply Qmult_le_compat_r; [|done].
    apply Qle_shift_div_r; [done|]. by rewrite Qmult_1_l.
Qed.

(** The curve of a column, point by point, when there is one. *)
Lemma l90_cumsum_bins (l90 : list (option Q)) (curve : list (Z * Q)) :
  L90.l90_cumsum l90 = Ok curve →
  ∃ bins, bins ≠ [] ∧ StronglySorted Z.lt bins ∧
          (∀ b, b ∈ bins ↔ b ∈ rounded l90) ∧
          curve = (fun b => (b, cumulative_percent (rounded l90) b)) <$> bins.
Proof.
  set (V := rounded l90).
  set (s := L90.sort_values (L90.round l90)).
  assert (HV : omap id s ≡ₚ V).
  { unfold s, L90.sort_values, V, rounded. by rewrite merge_sort_Permutation. }
  destruct (sort_index_value_counts s) as (bins0 & Hsorted & Hbins & Hcounts).
  assert (Hbins' : ∀ b, b ∈ bins0 ↔ b ∈ V) by (intros b; by rewrite Hbins, HV).
  assert (Hcum : L90.cumsum (L90.sort_index (L90.value_counts s))
                 = (fun b => (b, length (filter (fun v => (v ≤ b)%Z) V)))
                     <$> bins0).
  { rewrite Hcounts, cumsum_counts; [|done|by intros v; rewrite Hbins].
    apply list_fmap_ext. intros _ b _. f_equal.
    apply Permutation_length. by rewrite HV. }
  unfold L90.l90_cumsum. fold s. rewrite Hcum. unfold L90.iloc_last.
  destruct bins0 as [|bmax bins _] using rev_ind; [done|].
  rewrite fmap_last, last_snoc. simpl. unfold mbind, outcome_bind.
  intros [= <-]. exists (bins ++ [bmax]).
  split; [by destruct bins|]. split; [done|]. split; [done|].
  assert (Htotal : length (filter (fun v => (v ≤ bmax)%Z) V) = length V).
  { apply length_filter_all. intros v Hv%Hbins'.
    apply elem_of_app in Hv as [Hv| ->%list_elem_of_singleton]; [|lia].
    apply Z.lt_le_incl.
    apply (StronglySorted_app_1_elem_of _ _ _ _ _ Hsorted Hv). by left. }
  rewrite <-list_fmap_compose. apply list_fmap_ext. intros _ b _. simpl.
  unfold cumulative_percent. by rewrite Htotal.
Qed.

(** X11.  The cumulative curve rises.  Whenever the chart has a curve,
    its bins are strictly ascending, its percentages are strictly
    ascending with them, and every percentage is above 0 and at most 100:
    the curve stays inside the [0, 100] range of the secondary axis. *)
Theorem l90_curve_rises (l90 : list (option Q)) (curve : list (Z * Q)) :
  L90.l90_cumsum l90 = Ok curve →
  curve ≠ [] ∧
  StronglySorted Z.lt curve.*1 ∧
  StronglySorted Qlt curve.*2 ∧
  Forall (fun p => 0 < p.2 ∧ p.2 <= 100)%Q curve.
Proof.
  intros (bins & Hne & Hsorted & Hbins & ->)%l90_cumsum_bins.
  set (V := rounded l90) in *.
  assert (HV : (0 < length V)%nat).
  { destruct bins as [|b bins]; [done|].
    assert (Hb : b ∈ V) by (apply Hbins; by left).
    destruct V; [by apply elem_of_nil in Hb|simpl; lia]. }
  split; [by destruct bins|]. split; [|split].
  - rewrite <-list_fmap_compose. by rewrite list_fmap_id.
  - rewrite <-list_fmap_compose.
    apply (StronglySorted_fmap_mono Z.lt); [done|].
    intros b b' _ Hb'%Hbins Hlt. simpl. unfold cumulative_percent.
    apply percent_lt; [done|]. by apply count_le_lt.
  - apply Forall_fmap, Forall_forall. intros b Hb%Hbins. simpl.
    unfold cumulative_percent. apply percent_range.
    + apply (length_filter_pos _ V b); [done|lia].
    + apply length_filter.
Qed.


(** X11 at work on six readings, one of them missing. *)
Lemma l90_curve_rises_witness :
  ∃ curve,
    L90.l90_cumsum [Some (452 # 10); None; Some (25 # 10); Some (35 # 10);
                    Some (447 # 10); Some (2 # 1)]%Q = Ok curve ∧
    curve ≠ [] ∧
    StronglySorted Z.lt curve.*1 ∧
    StronglySorted Qlt curve.*2 ∧
    Forall (fun p => 0 < p.2 ∧ p.2 <= 100)%Q curve.
Proof.
  eexists. split; [vm_compute; reflexivity|].
  apply (l90_curve_rises [Some (452 # 10); None; Some (25 # 10); Some (35 # 10);
                          Some (447 # 10); Some (2 # 1)]%Q).
  vm_compute; reflexivity.
Defined.

(** ** The period string *)

Lemma last_char_app (a s : string) (c : ascii) :
  last_char (a +:+ String c s) = last_char (String c s).
Proof.
  induction a as [|c' a IH]; [done|].
  change (String c' a +:+ String c s) with (String c' (a +:+ String c s)).
  cbn [last_char]. rewrite IH. by destruct a.
Qed.

Lemma string_app_length (a b : string) :
  String.length (a +:+ b) = (String.length a + String.length b)%nat.
Proof. induction a as [|c a IH]; simpl; [done|]. by rewrite IH. Qed.

Lemma string_app_inj_r (s a b : string) : a +:+ s = b +:+ s → a = b.
Proof.
  revert b. induction a as [|c a IH]; intros [|c' b] H; simpl in H.
  - done.
  - apply (f_equal String.length) in H. simpl in H.
    rewrite !string_app_length in H. simpl in H. lia.
  - apply (f_equal String.length) in H. simpl in H.
    rewrite !string_app_length in H. simpl in H. lia.
  - injection H as -> H. f_equal. by apply IH.
Qed.

(** The period string of the three units. *)
Lemma period_string_inj (n n' : Z) (u u' : string) :
  u ∈ keys suffix_map → u' ∈ keys suffix_map →
  period_string n u = period_string n' u' →
  n = n' ∧ u = u'.
Proof.
  assert (Hs : dict_get "second(s)" suffix_map = Some "s") by reflexivity.
  assert (Hm : dict_get "minute(s)" suffix_map = Some "min") by reflexivity.
  assert (Hh : dict_get "hour(s)" suffix_map = Some "h") by reflexivity.
  unfold keys at 1 2. cbn [suffix_map fmap list_fmap fst].
  rewrite !elem_of_cons, !elem_of_nil.
  intros [->|[->|[->|[]]]] [->|[->|[->|[]]]] H; unfold period_string in H;
    rewrite ?Hs, ?Hm, ?Hh in H; cbn [default from_option id] in H;
    try (apply (f_equal last_char) in H; rewrite !last_char_app in H;
         discriminate H);
    apply string_app_inj_r, (inj pretty) in H; by subst.
Qed.

(** X14.  The period string tells the periods apart.  For the three units
    of the select box, two entries give the same period string only when
    the number and the unit are both the same: no two periods the sidebar
    can express are taken for one another by the period check. *)
Theorem period_string_injective (n n' : Z) (u u' : string) :
  u ∈ keys suffix_map → u' ∈ keys suffix_map →
  period_string n u = period_string n' u' →
  n = n' ∧ u = u'.
Proof. apply period_string_inj. Qed.

(** X14 at work. *)
Lemma period_string_injective_witness :
  (15 = 15)%Z ∧ "minute(s)" = "minute(s)".
Proof.
  apply (period_string_injective 15 15 "minute(s)" "minute(s)");
    [unfold keys, suffix_map; cbn; set_solver..|reflexivity].
Defined.

(** ** The tab set and the session over whole runs *)

Lemma drawn_tabs_load_errors {F} (PyNS : Engine) mktemp d (files : list UploadedFile) :
  drawn_tabs (F:=F) (omap (load_error PyNS mktemp d) files) = [].
Proof.
  apply drawn_tabs_not_tabs, Forall_forall. intros [c e] Hin.
  apply list_elem_of_omap in Hin as (uf & _ & Hin). unfold load_error in Hin.
  destruct (parse_upload PyNS mktemp d uf); by simplify_eq.
Qed.

Section TabSet.
Variable PyNS : Engine.
Context {F : Type}.
Variable spectra_figure :
  string → DataFrame → list string → list label → outcome F.
Variable mktemp : gmap string string → string.
Hypothesis mktemp_fresh : ∀ d, d !! mktemp d = None.

(** The session a run with files leaves. *)
Lemma script_session (w : Widgets) (w0 : world F) :
  files w ≠ [] →
  session_state (script PyNS spectra_figure mktemp w w0).2
  = session_after w (session_state w0).
Proof.
  intros Hfiles. rewrite script_with_files by done.
  by rewrite keeps_session_main_window.
Qed.

(** X12.  The tabs are the names that parse.  In a run with files whose
    failures to parse are [Exception]s (and whose survey lets nothing
    escape), one tab set is drawn: Summary, then position tabs whose
    labels are pairwise distinct and are exactly the names of the uploads
    that parse.  There are never more position tabs than uploads. *)
Theorem tabs_are_parsed_names (w : Widgets) (w0 : world F) :
  files w ≠ [] →
  (∀ uf e, uf ∈ files w →
           parse_upload PyNS mktemp (disk w0) uf = Raise e →
           is_Exception e = true) →
  (∀ logs e, survey_tables PyNS logs ≠ Raise e) →
  ∃ pos_list,
    drawn_tabs (page (script PyNS spectra_figure mktemp w w0).2)
    = drawn_tabs (page w0) ++ ["Summary" :: pos_list] ∧
    NoDup pos_list ∧
    (∀ k, k ∈ pos_list ↔
          ∃ uf lg, uf ∈ files w ∧ name uf = k ∧
                   parse_upload PyNS mktemp (disk w0) uf = Ok lg) ∧
    (length pos_list ≤ length (files w))%nat.
Proof.
  intros Hfiles Hexn Hsurvey.
  destruct (enter_logs_spec PyNS mktemp (disk w0) (files w))
    as (Hnodup & Hkeys & _).
  set (logs := foldl (enter_log PyNS mktemp (disk w0)) [] (files w)) in *.
  exists (keys logs). split; [|split; [done|split; [done|]]].
  - rewrite script_with_files by done.
    unfold main_window, mbind at 1, run_bind.
    rewrite (load_logs_spec PyNS mktemp mktemp_fresh) by done.
    cbn [disk page session_state]. fold logs.
    unfold mbind at 1, run_bind, call.
    destruct (survey_tables PyNS logs) as [s|e] eqn:Hs;
      [|by destruct (Hsurvey logs e)].
    unfold mbind at 1, run_bind. simpl.
    set (w3 := mkWorld _ _ _).
    destruct (draws_only_bind not_tabs
                (summary_tab spectra_figure s (keys logs))
                (fun _ => position_tabs PyNS logs
                            (period_string (int_period w) (period_select w))
                            (files w))
                (draws_only_summary_tab _ _ _)
                (fun _ => draws_only_position_tabs _ _ _ _) w3)
      as (more3 & Hp3 & Hall3).
    transitivity (drawn_tabs (page w3 ++ more3));
      [exact (f_equal drawn_tabs Hp3)|].
    subst w3. cbn [page]. rewrite !drawn_tabs_app.
    rewrite drawn_tabs_load_errors, (drawn_tabs_not_tabs more3) by done.
    by rewrite !app_nil_r.
  - rewrite <-(length_fmap name (files w)).
    apply submseteq_length, NoDup_submseteq; [done|].
    intros k (uf & lg & Hin & <- & _)%Hkeys.
    apply list_elem_of_fmap. by exists uf.
Qed.

(** X13.  The view survives a rerun.  Once a run with files has set the
    session, a later run with the same period and without a press of the
    apply button leaves the session as it is: the aggregated view stays
    until the period changes. *)
Theorem rerun_keeps_view (w1 w2 : Widgets) (w0 : world F) :
  files w1 ≠ [] → files w2 ≠ [] →
  period_string (int_period w2) (period_select w2)
  = period_string (int_period w1) (period_select w1) →
  apply_agg_btn w2 = false →
  session_state (script PyNS spectra_figure mktemp w2
                   (script PyNS spectra_figure mktemp w1 w0).2).2
  = session_state (script PyNS spectra_figure mktemp w1 w0).2.
Proof.
  intros Hf1 Hf2 Hperiod Hbtn. rewrite !script_session by done.
  unfold session_after. rewrite Hperiod, Hbtn. cbn.
  rewrite (bool_decide_true (period_string _ _ = _)) by done.
  by rewrite andb_true_r.
Qed.

(** X15.  A change of period goes back to the raw view.  When the
    session holds the period string of an earlier entry and the sidebar
    now shows another number or another unit, a run without a press of
    the apply button ends with aggregation off and the new period string
    stored, whatever the flag was. *)
Theorem period_change_shows_raw (w : Widgets) (w0 : world F) agg n0 u0 :
  files w ≠ [] →
  session_state w0 = st.mkSession agg (Some (period_string n0 u0)) →
  u0 ∈ keys suffix_map → period_select w ∈ keys suffix_map →
  (int_period w, period_select w) ≠ (n0, u0) →
  apply_agg_btn w = false →
  session_state (script PyNS spectra_figure mktemp w w0).2
  = st.mkSession (Some false)
      (Some (period_string (int_period w) (period_select w))).
Proof.
  intros Hfiles Hs Hu0 Hu Hne Hbtn. rewrite script_session by done.
  unfold session_after, view. rewrite Hs, Hbtn. cbn.
  rewrite bool_decide_false; [by rewrite andb_false_r|].
  intros [-> ->]%period_string_inj; done.
Qed.

End TabSet.

(** X12 at work: a file that fails and a file that parses. *)
Lemma tabs_are_parsed_names_witness :
  ∃ pos_list,
    drawn_tabs (page (script Toy.engine Toy.spectra_figure Toy.mktemp
                        (mkWidgets [Toy.bad; Toy.good] 15 "minute(s)" false)
                        Toy.world0).2)
    = drawn_tabs (page Toy.world0) ++ ["Summary" :: pos_list] ∧
    NoDup pos_list ∧
    (∀ k, k ∈ pos_list ↔
          ∃ uf lg, uf ∈ [Toy.bad; Toy.good] ∧ name uf = k ∧
                   parse_upload Toy.engine Toy.mktemp (disk Toy.world0) uf
                   = Ok lg) ∧
    (length pos_list ≤ 2)%nat.
Proof.
  refine (tabs_are_parsed_names Toy.engine Toy.spectra_figure Toy.mktemp
            toy_mktemp_fresh
            (mkWidgets [Toy.bad; Toy.good] 15 "minute(s)" false) Toy.world0
            _ (fun uf e _ => toy_raises_exceptions _ uf e) toy_survey_tables).
  discriminate.
Defined.

(** X13 at work: the button is pressed in the first run only. *)
Lemma rerun_keeps_view_witness :
  session_state
    (script Toy.engine Toy.spectra_figure Toy.mktemp
       (mkWidgets [Toy.good] 15 "minute(s)" false)
       (script Toy.engine Toy.spectra_figure Toy.mktemp
          (mkWidgets [Toy.good] 15 "minute(s)" true) Toy.world0).2).2
  = session_state
      (script Toy.engine Toy.spectra_figure Toy.mktemp
         (mkWidgets [Toy.good] 15 "minute(s)" true) Toy.world0).2.
Proof.
  apply (rerun_keeps_view Toy.engine Toy.spectra_figure Toy.mktemp
           (mkWidgets [Toy.good] 15 "minute(s)" true)
           (mkWidgets [Toy.good] 15 "minute(s)" false) Toy.world0);
    (discriminate || reflexivity).
Defined.

(** X15 at work: from 15 to 30 minutes with aggregation applied. *)
Lemma period_change_shows_raw_witness :
  session_state
    (script Toy.engine Toy.spectra_figure Toy.mktemp
       (mkWidgets [Toy.good] 30 "minute(s)" false)
       (mkWorld (st.mkSession (Some true)
                   (Some (period_string 15 "minute(s)"))) ∅ [])).2
  = st.mkSession (Some false) (Some (period_string 30 "minute(s)")).
Proof.
  apply (period_change_shows_raw Toy.engine Toy.spectra_figure Toy.mktemp
           (mkWidgets [Toy.good] 30 "minute(s)" false)
           (mkWorld (st.mkSession (Some true)
                       (Some (period_string 15 "minute(s)"))) ∅ [])
           (Some true) 15 "minute(s)").
  - discriminate.
  - reflexivity.
  - unfold keys, suffix_map; cbn; set_solver.
  - unfold keys, suffix_map; cbn; set_solver.
  - intros [=].
  - reflexivity.
Defined.

(** ** A flat spectra table *)

(** The labels a flat header can hold after the index levels have been
    entered. *)
Lemma insert_levels_labels (levels : list (nat * label)) (df obj : DataFrame) ls :
  columns df = Flat ls →
  foldr (fun '(i, name) acc => obj ← acc; insert0 name (level_value i) obj)
        (Ok df) levels = Ok obj →
  ∃ ls', columns obj = Flat ls' ∧ ∀ l, l ∈ ls' → l ∈ levels.*2 ∨ l ∈ ls.
Proof.
  intros Hcols. revert obj. induction levels as [|[i name] levels IH]; intros obj.
  - simpl. intros [= <-]. exists ls. split; [done|]. by right.
  - simpl. unfold mbind, outcome_bind.
    destruct (foldr _ _ levels) as [obj'|e]; [|done].
    destruct (IH obj' eq_refl) as (ls' & Hobj' & Hin).
    unfold insert0. rewrite Hobj'. case_bool_decide; [done|].
    intros [= <-]. simpl. eexists. split; [done|].
    intros l [->|Hl]%elem_of_cons; [left; by left|].
    destruct (Hin l Hl); [left; by right|by right].
Qed.

(** X16.  A flat spectra table goes to one position.  A table with a
    single-level header is never split: whatever the list of positions,
    the reshaper returns what it returns for the first position alone
    ([Pos1] when there is none), with the rows of the table in their
    number.  When neither the index nor the header holds a Position
    label, Position is the leading column and holds that one name in
    every row. *)
Theorem flat_table_first_position idx ls rs (pos_names : list string) t :
  let df := mkDataFrame idx (Flat ls) rs in
  let pos := default "Pos1" (head pos_names) in
  spectra_to_rows (Some df) pos_names = Ok (Some t) →
  spectra_to_rows (Some df) [pos] = Ok (Some t) ∧
  length (rows t) = length rs ∧
  ∃ hdr, columns t = Flat hdr ∧ LStr "Position" ∈ hdr ∧
         (LStr "Position" ∉ default_index_names df ++ ls →
          head hdr = Some (LStr "Position") ∧
          Forall (fun r => head (cells r) = Some (VStr pos)) (rows t)).
Proof.
  intros df pos Ht.
  assert (Hsame : spectra_to_rows (Some df) [pos]
                  = spectra_to_rows (Some df) pos_names)
    by (by destruct pos_names).
  split; [by rewrite Hsame|].
  destruct (tidy_flat_shape df ls pos_names t eq_refl Ht)
    as (_ & (cs & Hrows & Hlen) & (hdr & Hhdr & Hpos)).
  split; [by rewrite Hrows, length_numbered|].
  exists hdr. split; [done|]. split; [done|]. intros Hown.
  revert Ht. unfold spectra_to_rows, reset_index. cbn [columns df].
  unfold mbind, outcome_bind.
  destruct (foldr _ _ _) as [obj|e] eqn:Hfold; [|done].
  apply (insert_levels_labels _ df _ ls eq_refl) in Hfold as (ls' & Hobj & Hin).
  assert (Hno : LStr "Position"
                ∉ rename_label (py_or (index_name idx) (LStr "index"))
                    (LStr "Period") <$> ls').
  { intros (l & Hl & Hlin)%list_elem_of_fmap. unfold rename_label in Hl.
    case_bool_decide; [done|]. subst l. apply Hown, elem_of_app.
    destruct (Hin _ Hlin) as [Hlev|?]; [left|by right].
    apply list_elem_of_fmap in Hlev as ([i n] & -> & Hlev).
    apply list_elem_of_lookup in Hlev as [j Hj].
    rewrite list_lookup_imap in Hj.
    destruct (default_index_names df !! j) as [n'|] eqn:Hn'; [|done].
    simpl in Hj. injection Hj as <- <-. by eapply list_elem_of_lookup_2. }
  unfold contains, rename_columns. cbn [columns index rows]. rewrite Hobj. cbn [columns index rows].
  rewrite bool_decide_false by done.
  unfold insert0. cbn [columns index rows].
  rewrite bool_decide_false by done.
  intros [= <-]. cbn [columns] in Hhdr. injection Hhdr as <-.
  split; [done|]. cbn [rows]. apply Forall_fmap, Forall_forall.
  intros r _. simpl. by destruct pos_names.
Qed.

(** X16 at work: two positions, one flat table. *)
Lemma flat_table_first_position_witness :
  ∃ t, spectra_to_rows (Some Toy.flat_spectra) ["b.csv"; "a.csv"] = Ok (Some t) ∧
       spectra_to_rows (Some Toy.flat_spectra) ["b.csv"] = Ok (Some t).
Proof.
  eexists. split; [vm_compute; reflexivity|].
  refine (proj1 (flat_table_first_position (Index (LStr "Period"))
                   [LInt 63; LInt 125] (rows Toy.flat_spectra)
                   ["b.csv"; "a.csv"] _ _)).
  vm_compute; reflexivity.
Defined.
